(** * kittik-cursor: a shallow embedding of [Cell.js] and [Cursor.js]

    The virtual screen of kittik-cursor is a grid of styled cells plus a
    shadow array holding the control sequence last sent for every position.
    This file embeds the two classes as pure state-passing functions and
    proves the properties of the flush protocol, of the drawing operations
    and of the cell renderer.

    Modelling conventions.
    - A JavaScript string is a [string]; [toUpperCase] is the ASCII
      upper-casing (the colour names of the library are ASCII).
    - Coordinates and sizes are integers ([Z]).  Arguments that the source
      passes through [Math.floor] are rationals ([Q]) and are floored.
    - An optional argument is an [option]: [None] is JavaScript's
      [undefined], for which a default parameter value is substituted.
    - Every mutator of the source returns [this]; here it returns the new
      state of the object.
    - The output stream is the list of the strings written to it, oldest
      first. *)

From Stdlib Require Import ZArith QArith Qround String Ascii DecimalString.
From stdpp Require Import base option list gmap strings.

Local Open Scope Z_scope.
Local Open Scope string_scope.
Local Open Scope list_scope.

(** ** JavaScript values found in the colour table *)

Inductive JSValue : Type :=
| JSNum (n : Z)
| JSStr (s : string).

(** Truthiness of the result of a property read ([None] is [undefined]). *)
Definition truthy (v : option JSValue) : bool :=
  match v with
  | None => false
  | Some (JSNum n) => negb (Z.eqb n 0)
  | Some (JSStr s) => negb (String.eqb s "")
  end.

(** Decimal rendering of an integer, as a template literal prints it. *)
Definition Z_to_string (n : Z) : string := NilZero.string_of_int (Z.to_int n).

(** [`${v}`] for the result of a property read. *)
Definition template (v : option JSValue) : string :=
  match v with
  | None => "undefined"
  | Some (JSNum n) => Z_to_string n
  | Some (JSStr s) => s
  end.

Definition upper_ascii (c : ascii) : ascii :=
  let n := N_of_ascii c in
  if (97 <=? n)%N && (n <=? 122)%N then ascii_of_N (n - 32) else c.

(** [String.prototype.toUpperCase] on ASCII strings. *)
Fixpoint toUpperCase (s : string) : string :=
  match s with
  | EmptyString => EmptyString
  | String c r => String (upper_ascii c) (toUpperCase r)
  end.

(** [Math.floor]. *)
Definition Math_floor (x : Q) : Z := Qfloor x.

(** The control byte 0x1B. *)
Definition ESC : string := String (ascii_of_N 27) EmptyString.

(** util/encodeToVT100.js *)
Definition encodeToVT100 (code : string) : string := ESC +:+ code.

(** util/displayModes.js *)
Module DISPLAY_MODES.
Definition RESET_ALL := "[0m".
Definition BOLD := "[1m".
Definition DIM := "[2m".
Definition UNDERLINED := "[4m".
Definition BLINK := "[5m".
Definition REVERSE := "[7m".
Definition HIDDEN := "[8m".
Definition RESET_BOLD := "[21m".
Definition RESET_DIM := "[22m".
Definition RESET_UNDERLINED := "[24m".
Definition RESET_BLINK := "[25m".
Definition RESET_REVERSE := "[27m".
Definition RESET_HIDDEN := "[28m".
End DISPLAY_MODES.

(** The six display modes of a cell or of the pen. *)
Module Display.
Record t : Type := mk {
  bold : bool;
  dim : bool;
  underlined : bool;
  blink : bool;
  reverse : bool;
  hidden : bool
}.
End Display.

(** ** Cell.js *)

Module Cell.

Record t : Type := mk {
  _char : string;
  _x : Z;
  _y : Z;
  _background : string;
  _foreground : string;
  _display : Display.t;
  _modified : bool
}.

(** The [options.display] object of the constructor. *)
Record DisplayOptions : Type := mkDisplayOptions {
  opt_bold : option bool;
  opt_dim : option bool;
  opt_underlined : option bool;
  opt_blink : option bool;
  opt_reverse : option bool;
  opt_hidden : option bool
}.

(** The [options] object of the constructor. *)
Record Options : Type := mkOptions {
  x : option Q;
  y : option Q;
  background : option string;
  foreground : option string;
  display : DisplayOptions
}.

(** [{}] *)
Definition no_display : DisplayOptions :=
  mkDisplayOptions None None None None None None.
Definition no_options : Options := mkOptions None None None None no_display.

Section WithColors.

(** util/colors.js is not part of the sources at hand: the colour table is
    a parameter, a JavaScript object from colour names to codes. *)
Variable COLORS : gmap string JSValue.

Definition getChar (this : t) : string := _char this.

Definition setChar (char : option string) (this : t) : t :=
  let char := default " " char in
  mk (substring 0 1 char) (_x this) (_y this) (_background this)
     (_foreground this) (_display this) (_modified this).

Definition getX (this : t) : Z := _x this.

Definition setX (x : option Q) (this : t) : t :=
  let x := default 0%Q x in
  mk (_char this) (Math_floor x) (_y this) (_background this)
     (_foreground this) (_display this) (_modified this).

Definition getY (this : t) : Z := _y this.

Definition setY (y : option Q) (this : t) : t :=
  let y := default 0%Q y in
  mk (_char this) (_x this) (Math_floor y) (_background this)
     (_foreground this) (_display this) (_modified this).

Definition getBackground (this : t) : string := _background this.

Definition setBackground (colorName : option string) (this : t) : t :=
  let colorName := default "none" colorName in
  let color := toUpperCase colorName in
  mk (_char this) (_x this) (_y this)
     (if truthy (COLORS !! color) then color else "none")
     (_foreground this) (_display this) (_modified this).

Definition getForeground (this : t) : string := _foreground this.

Definition setForeground (colorName : option string) (this : t) : t :=
  let colorName := default "none" colorName in
  let color := toUpperCase colorName in
  mk (_char this) (_x this) (_y this) (_background this)
     (if truthy (COLORS !! color) then color else "none")
     (_display this) (_modified this).

Definition getDisplay (this : t) : Display.t := _display this.

Definition setDisplay (bold dim underlined blink reverse hidden : option bool)
    (this : t) : t :=
  mk (_char this) (_x this) (_y this) (_background this) (_foreground this)
     (Display.mk (default false bold) (default false dim)
                (default false underlined) (default false blink)
                (default false reverse) (default false hidden))
     (_modified this).

Definition setModified (isModified : option bool) (this : t) : t :=
  mk (_char this) (_x this) (_y this) (_background this) (_foreground this)
     (_display this) (default true isModified).

Definition isModified (this : t) : bool := _modified this.

Definition reset (this : t) : t :=
  setModified (Some true)
    (setDisplay (Some false) (Some false) (Some false) (Some false)
                (Some false) (Some false)
       (setForeground (Some "none")
          (setBackground (Some "none")
             (setChar (Some " ") this)))).

Definition toString (this : t) : string :=
  let char := getChar this in
  let x := getX this in
  let y := getY this in
  let background := getBackground this in
  let foreground := getForeground this in
  let display := getDisplay this in
  encodeToVT100 ("[" +:+ Z_to_string (y + 1) +:+ ";" +:+ Z_to_string (x + 1) +:+ "f") +:+
  (if String.eqb background "none" then ""
   else encodeToVT100 ("[48;5;" +:+ template (COLORS !! background) +:+ "m")) +:+
  (if String.eqb foreground "none" then ""
   else encodeToVT100 ("[38;5;" +:+ template (COLORS !! foreground) +:+ "m")) +:+
  (if Display.bold display then encodeToVT100 DISPLAY_MODES.BOLD else "") +:+
  (if Display.dim display then encodeToVT100 DISPLAY_MODES.DIM else "") +:+
  (if Display.underlined display then encodeToVT100 DISPLAY_MODES.UNDERLINED else "") +:+
  (if Display.blink display then encodeToVT100 DISPLAY_MODES.BLINK else "") +:+
  (if Display.reverse display then encodeToVT100 DISPLAY_MODES.REVERSE else "") +:+
  (if Display.hidden display then encodeToVT100 DISPLAY_MODES.HIDDEN else "") +:+
  char +:+
  encodeToVT100 DISPLAY_MODES.RESET_ALL.

(** [new Cell(char, options)] *)
Definition constructor (char : option string) (options : Options) : t :=
  let this :=
    mk " " 0 0 "none" "none"
       (Display.mk false false false false false false) false in
  let d := display options in
  setModified (Some false)
    (setDisplay (opt_bold d) (opt_dim d) (opt_underlined d) (opt_blink d)
                (opt_reverse d) (opt_hidden d)
       (setForeground (foreground options)
          (setBackground (background options)
             (setY (y options)
                (setX (x options)
                   (setChar char this)))))).

(** [Cell.create(...args)] *)
Definition create (char : option string) (options : Options) : t :=
  constructor char options.

End WithColors.

End Cell.

(** ** Cursor.js *)

(** A JavaScript array whose elements may be [undefined]. *)
Definition array_get {A} (l : list (option A)) (i : nat) : option A :=
  mjoin (l !! i).

(** [l[i] = v]: an assignment past the end extends the array, the
    positions in between being left [undefined]. *)
Definition array_set {A} (i : nat) (v : A) (l : list (option A))
    : list (option A) :=
  if decide (i < length l)%nat then <[i := Some v]> l
  else l ++ replicate (i - length l) None ++ [Some v].

Module Cursor.

Record t : Type := mk {
  _stream : list string;
  _width : Z;
  _height : Z;
  _x : Z;
  _y : Z;
  _background : string;
  _foreground : string;
  _display : Display.t;
  _cells : list Cell.t;
  _lastFrame : list (option string)
}.

Definition set_stream (v : list string) (this : t) : t :=
  mk v (_width this) (_height this) (_x this) (_y this) (_background this)
     (_foreground this) (_display this) (_cells this) (_lastFrame this).
Definition set_x (v : Z) (this : t) : t :=
  mk (_stream this) (_width this) (_height this) v (_y this)
     (_background this) (_foreground this) (_display this) (_cells this)
     (_lastFrame this).
Definition set_y (v : Z) (this : t) : t :=
  mk (_stream this) (_width this) (_height this) (_x this) v
     (_background this) (_foreground this) (_display this) (_cells this)
     (_lastFrame this).
Definition set_background (v : string) (this : t) : t :=
  mk (_stream this) (_width this) (_height this) (_x this) (_y this) v
     (_foreground this) (_display this) (_cells this) (_lastFrame this).
Definition set_foreground (v : string) (this : t) : t :=
  mk (_stream this) (_width this) (_height this) (_x this) (_y this)
     (_background this) v (_display this) (_cells this) (_lastFrame this).
Definition set_display (v : Display.t) (this : t) : t :=
  mk (_stream this) (_width this) (_height this) (_x this) (_y this)
     (_background this) (_foreground this) v (_cells this) (_lastFrame this).
Definition set_cells (v : list Cell.t) (this : t) : t :=
  mk (_stream this) (_width this) (_height this) (_x this) (_y this)
     (_background this) (_foreground this) (_display this) v
     (_lastFrame this).
Definition set_lastFrame (v : list (option string)) (this : t) : t :=
  mk (_stream this) (_width this) (_height this) (_x this) (_y this)
     (_background this) (_foreground this) (_display this) (_cells this) v.

(** [this._stream.write(data)] *)
Definition stream_write (data : string) (this : t) : t :=
  set_stream (_stream this ++ [data]) this.

(** [this._cells[pointer]]: [undefined] off the array. *)
Definition cell_at (pointer : Z) (this : t) : option Cell.t :=
  if decide (0 <= pointer) then _cells this !! Z.to_nat pointer else None.

Section WithColors.

Variable COLORS : gmap string JSValue.

(** [new Cursor({stream, width, height})], on a stream that has received
    nothing yet.  [Array.from({length: n})] has no element when [n] is
    negative. *)
Definition constructor (width height : Z) : t :=
  let n := Z.to_nat (width * height) in
  mk [] width height 0 0 "none" "none"
     (Display.mk false false false false false false)
     (replicate n (Cell.constructor COLORS None Cell.no_options))
     (replicate n (Some "")).

Definition getPointerFromXY (x y : option Z) (this : t) : Z :=
  let x := default (_x this) x in
  let y := default (_y this) y in
  y * _width this + x.

(** [Math.floor(index / width)] is [index / width] in [Z] for a width
    other than zero. *)
Definition getXYFromPointer (index : Z) (this : t) : Z * Z :=
  (index - (index / _width this) * _width this, index / _width this).

(** The body of the loop of [write]; [None] is the [TypeError] raised by
    a method call on [undefined]. *)
Definition write_char (char : string) (this : t) : option t :=
  let width := _width this in
  let height := _height this in
  let background := _background this in
  let foreground := _foreground this in
  let display := _display this in
  let x := _x this in
  let y := _y this in
  let pointer := getPointerFromXY (Some x) (Some y) this in
  this' ←
    (if decide (0 <= x ∧ x < width ∧ 0 <= y ∧ y < height) then
       cell ← cell_at pointer this;
       Some (set_cells
               (<[Z.to_nat pointer :=
                  Cell.setModified (Some true)
                    (Cell.setDisplay (Some (Display.bold display)) (Some (Display.dim display))
                       (Some (Display.underlined display)) (Some (Display.blink display))
                       (Some (Display.reverse display)) (Some (Display.hidden display))
                       (Cell.setForeground COLORS (Some foreground)
                          (Cell.setBackground COLORS (Some background)
                             (Cell.setY (Some (inject_Z y))
                                (Cell.setX (Some (inject_Z x))
                                   (Cell.setChar (Some char) cell))))))]>
                  (_cells this)) this)
     else Some this);
  Some (set_x (_x this' + 1) this').

(** [data[i]] for [i = 0 .. data.length - 1]. *)
Definition chars (data : string) : list string :=
  (λ c, String c EmptyString) <$> list_ascii_of_string data.

Definition write (data : string) (this : t) : option t :=
  foldl (λ acc char, acc ≫= write_char char) (Some this) (chars data).

(** The body of the loop of [flush]. *)
Definition flush_cell (this : t) (i : nat) : t :=
  match _cells this !! i with
  | Some cell =>
      if Cell.isModified cell then
        let cell' := Cell.setModified (Some false) cell in
        let cellSeq := Cell.toString COLORS cell' in
        let this := set_cells (<[i := cell']> (_cells this)) this in
        if decide (Some cellSeq ≠ array_get (_lastFrame this) i) then
          stream_write cellSeq
            (set_lastFrame (array_set i cellSeq (_lastFrame this)) this)
        else this
      else this
  | None => this (* not reached: [i < this._cells.length] *)
  end.

Definition flush (this : t) : t :=
  foldl flush_cell this (seq 0 (length (_cells this))).

Definition up (y : option Q) (this : t) : t :=
  set_y (_y this - Math_floor (default 1%Q y)) this.
Definition down (y : option Q) (this : t) : t :=
  set_y (_y this + Math_floor (default 1%Q y)) this.
Definition right (x : option Q) (this : t) : t :=
  set_x (_x this + Math_floor (default 1%Q x)) this.
Definition left (x : option Q) (this : t) : t :=
  set_x (_x this - Math_floor (default 1%Q x)) this.

Definition moveBy (x y : Q) (this : t) : t :=
  let this := if Qlt_le_dec x 0 then left (Some (- x)%Q) this else this in
  let this := if Qlt_le_dec 0 x then right (Some x) this else this in
  let this := if Qlt_le_dec y 0 then up (Some (- y)%Q) this else this in
  let this := if Qlt_le_dec 0 y then down (Some y) this else this in
  this.

Definition moveTo (x y : Q) (this : t) : t :=
  set_y (Math_floor y) (set_x (Math_floor x) this).

Definition foreground (color : option string) (this : t) : t :=
  set_foreground (default "none" color) this.
Definition background (color : option string) (this : t) : t :=
  set_background (default "none" color) this.

Definition bold (isBold : option bool) (this : t) : t :=
  let d := _display this in
  set_display (Display.mk (default true isBold) (Display.dim d) (Display.underlined d)
                 (Display.blink d) (Display.reverse d) (Display.hidden d)) this.
Definition dim (isDim : option bool) (this : t) : t :=
  let d := _display this in
  set_display (Display.mk (Display.bold d) (default true isDim) (Display.underlined d)
                 (Display.blink d) (Display.reverse d) (Display.hidden d)) this.
Definition underlined (isUnderlined : option bool) (this : t) : t :=
  let d := _display this in
  set_display (Display.mk (Display.bold d) (Display.dim d) (default true isUnderlined)
                 (Display.blink d) (Display.reverse d) (Display.hidden d)) this.
Definition blink (isBlink : option bool) (this : t) : t :=
  let d := _display this in
  set_display (Display.mk (Display.bold d) (Display.dim d) (Display.underlined d)
                 (default true isBlink) (Display.reverse d) (Display.hidden d)) this.
Definition reverse (isReverse : option bool) (this : t) : t :=
  let d := _display this in
  set_display (Display.mk (Display.bold d) (Display.dim d) (Display.underlined d)
                 (Display.blink d) (default true isReverse) (Display.hidden d)) this.
Definition hidden (isHidden : option bool) (this : t) : t :=
  let d := _display this in
  set_display (Display.mk (Display.bold d) (Display.dim d) (Display.underlined d)
                 (Display.blink d) (Display.reverse d) (default true isHidden)) this.

(** The body of the inner loop of [erase]:
    [this._cells[pointer] && this._cells[pointer].reset()]. *)
Definition erase_cell (y : Z) (this : t) (x : Z) : t :=
  let pointer := getPointerFromXY (Some x) (Some y) this in
  match cell_at pointer this with
  | Some cell =>
      set_cells (<[Z.to_nat pointer := Cell.reset COLORS cell]> (_cells this))
        this
  | None => this
  end.

(** [for (x = x1; x <= x2; x++)] *)
Definition erase_row (x1 x2 : Z) (this : t) (y : Z) : t :=
  foldl (erase_cell y) this (seqZ x1 (x2 - x1 + 1)).

(** [for (y = y1; y <= y2; y++)] *)
Definition erase (x1 y1 x2 y2 : Z) (this : t) : t :=
  foldl (erase_row x1 x2) this (seqZ y1 (y2 - y1 + 1)).

Definition eraseToEnd (this : t) : t :=
  erase (_x this) (_y this) (_width this - 1) (_y this) this.
Definition eraseToStart (this : t) : t :=
  erase 0 (_y this) (_x this) (_y this) this.
Definition eraseToDown (this : t) : t :=
  erase 0 (_y this) (_width this - 1) (_height this - 1) this.
Definition eraseToUp (this : t) : t :=
  erase 0 0 (_width this - 1) (_y this) this.
Definition eraseLine (this : t) : t :=
  erase 0 (_y this) (_width this - 1) (_y this) this.
Definition eraseScreen (this : t) : t :=
  erase 0 0 (_width this - 1) (_height this - 1) this.

Definition saveScreen (this : t) : t :=
  stream_write (encodeToVT100 "[?47h") this.
Definition restoreScreen (this : t) : t :=
  stream_write (encodeToVT100 "[?47l") this.
Definition hideCursor (this : t) : t :=
  stream_write (encodeToVT100 "[?25l") this.
Definition showCursor (this : t) : t :=
  stream_write (encodeToVT100 "[?25h") this.
Definition reset (this : t) : t :=
  stream_write (encodeToVT100 "c") this.

End WithColors.

End Cursor.

(** ** The flush protocol, as the specification words it *)

(** A dirty cell has its flag cleared; a clean cell is skipped. *)
Definition flushed_cell (cell : Cell.t) : Cell.t :=
  if Cell.isModified cell then Cell.setModified (Some false) cell else cell.

(** The string that flushing sends for position [i], if any: the
    rendering of a dirty cell that differs from the shadow entry. *)
Definition emitted (COLORS : gmap string JSValue) (this : Cursor.t) (i : nat)
    : option string :=
  cell ← Cursor._cells this !! i;
  if Cell.isModified cell then
    let cellSeq := Cell.toString COLORS (Cell.setModified (Some false) cell) in
    if decide (Some cellSeq ≠ array_get (Cursor._lastFrame this) i)
    then Some cellSeq else None
  else None.

(** The state after the loop of [flush] has gone through the first [k]
    positions of [this]. *)
Record flushed_upto (COLORS : gmap string JSValue) (this : Cursor.t)
    (k : nat) (st : Cursor.t) : Prop := {
  upto_width : Cursor._width st = Cursor._width this;
  upto_height : Cursor._height st = Cursor._height this;
  upto_x : Cursor._x st = Cursor._x this;
  upto_y : Cursor._y st = Cursor._y this;
  upto_background : Cursor._background st = Cursor._background this;
  upto_foreground : Cursor._foreground st = Cursor._foreground this;
  upto_display : Cursor._display st = Cursor._display this;
  upto_cells :
    Cursor._cells st =
    (flushed_cell <$> take k (Cursor._cells this)) ++ drop k (Cursor._cells this);
  upto_lastFrame : ∀ i,
    array_get (Cursor._lastFrame st) i =
    if decide (i < k)%nat then
      match emitted COLORS this i with
      | Some cellSeq => Some cellSeq
      | None => array_get (Cursor._lastFrame this) i
      end
    else array_get (Cursor._lastFrame this) i;
  upto_stream :
    Cursor._stream st = Cursor._stream this ++ omap (emitted COLORS this) (seq 0 k)
}.

(** The invariant of the specification's data model: the grid and the
    shadow both have [width * height] entries. *)
Definition well_formed (this : Cursor.t) : Prop :=
  length (Cursor._cells this) = Z.to_nat (Cursor._width this * Cursor._height this) ∧
  length (Cursor._lastFrame this) = Z.to_nat (Cursor._width this * Cursor._height this).

(** No cell of the grid is dirty. *)
Definition all_clean (this : Cursor.t) : Prop :=
  Forall (λ cell, Cell.isModified cell = false) (Cursor._cells this).

(** ** Sample data *)

(** Modelled from the spec: util/colors.js is missing; these are the three
    entries of the colour table that the specification quotes
    (BLACK=0, YELLOW=11, WHITE=15). *)
Definition SPEC_COLORS : gmap string JSValue :=
  {[ "BLACK" := JSNum 0; "YELLOW" := JSNum 11; "WHITE" := JSNum 15 ]}.

(** [new Cell()] *)
Definition blank_cell : Cell.t := Cell.constructor SPEC_COLORS None Cell.no_options.

(** A 3 x 2 screen, untouched. *)
Definition screen_3x2 : Cursor.t := Cursor.constructor SPEC_COLORS 3 2.

(** The same screen after [moveTo(1, 1).write("Hi")], yellow on white. *)
Definition screen_Hi : Cursor.t :=
  default screen_3x2
    (Cursor.write SPEC_COLORS "Hi"
       (Cursor.background (Some "white")
          (Cursor.foreground (Some "yellow")
             (Cursor.moveTo 1 1 screen_3x2)))).

(** [screen_Hi] flushed, and [Hi] written again at the same place with the
    same pen. *)
Definition screen_Hi_redrawn : Cursor.t :=
  let this := Cursor.flush SPEC_COLORS screen_Hi in
  default this (Cursor.write SPEC_COLORS "Hi" (Cursor.moveTo 1 1 this)).

(** A 3 x 2 screen with [abc] on its first line and [d] under the [a],
    flushed; the cursor is left after the [c], at column 3. *)
Definition screen_abc_d : Cursor.t :=
  let this := Cursor.moveTo 0 1 screen_3x2 in
  let this := default this (Cursor.write SPEC_COLORS "d" this) in
  let this := Cursor.moveTo 0 0 this in
  let this := default this (Cursor.write SPEC_COLORS "abc" this) in
  Cursor.flush SPEC_COLORS this.

(** ** The wire format, as the specification words it *)

(** [ESC[<row>;<col>f] *)
Definition position_sequence (row col : Z) : string :=
  ESC +:+ "[" +:+ Z_to_string row +:+ ";" +:+ Z_to_string col +:+ "f".

(** [ESC[48;5;<code>m] and [ESC[38;5;<code>m] *)
Definition background_sequence (code : string) : string :=
  ESC +:+ "[48;5;" +:+ code +:+ "m".
Definition foreground_sequence (code : string) : string :=
  ESC +:+ "[38;5;" +:+ code +:+ "m".

(** The style flags in their fixed order, each with its code. *)
Definition style_table : list ((Display.t → bool) * string) :=
  [ (Display.bold, ESC +:+ "[1m");
    (Display.dim, ESC +:+ "[2m");
    (Display.underlined, ESC +:+ "[4m");
    (Display.blink, ESC +:+ "[5m");
    (Display.reverse, ESC +:+ "[7m");
    (Display.hidden, ESC +:+ "[8m") ].

(** One code for each flag that is set. *)
Definition style_sequences (display : Display.t) : list string :=
  snd <$> filter (λ style, fst style display = true) style_table.

(** The pieces of the rendering of a cell, in order. *)
Definition render_segments (COLORS : gmap string JSValue) (cell : Cell.t)
    : list string :=
  [position_sequence (Cell._y cell + 1) (Cell._x cell + 1)] ++
  (if decide (Cell._background cell = "none") then []
   else [background_sequence (template (COLORS !! Cell._background cell))]) ++
  (if decide (Cell._foreground cell = "none") then []
   else [foreground_sequence (template (COLORS !! Cell._foreground cell))]) ++
  style_sequences (Cell._display cell) ++
  [Cell._char cell; ESC +:+ "[0m"].

(** Concatenation of a list of strings. *)
Definition concat_strings (l : list string) : string :=
  foldr String.append "" l.

(** ** Writing, as the specification words it *)

(** The colour a cell keeps for a name: the upper-cased name when the
    table gives it a truthy code, [none] otherwise. *)
Definition normalized (COLORS : gmap string JSValue) (name : string) : string :=
  if truthy (COLORS !! toUpperCase name) then toUpperCase name else "none".

(** Every code of the table is truthy. *)
Definition codes_truthy (COLORS : gmap string JSValue) : Prop :=
  ∀ name code, COLORS !! name = Some code → truthy (Some code) = true.

(** The cell that holds [char] at column [x] of the cursor's line, drawn
    with the pen of [this]. *)
Definition pen_cell (COLORS : gmap string JSValue) (this : Cursor.t)
    (char : ascii) (x : Z) : Cell.t :=
  Cell.mk (String char EmptyString) x (Cursor._y this)
    (normalized COLORS (Cursor._background this))
    (normalized COLORS (Cursor._foreground this))
    (Cursor._display this) true.

(** The position [(x, y)] lies on the grid of [this]. *)
Definition on_grid (this : Cursor.t) (x y : Z) : Prop :=
  0 <= x < Cursor._width this ∧ 0 <= y < Cursor._height this.

(** What [write(data)] puts at index [p]: the [k]-th character of [data],
    [k] columns right of the cursor, when that column is on the grid and
    has index [p]. *)
Definition written_at (this : Cursor.t) (data : string) (p : nat)
    : option (ascii * Z) :=
  let k := Z.of_nat p - (Cursor._y this * Cursor._width this + Cursor._x this) in
  if decide (0 <= k ∧ on_grid this (Cursor._x this + k) (Cursor._y this))
  then (λ char, (char, Cursor._x this + k)) <$> String.get (Z.to_nat k) data
  else None.

(** [this'] differs from [this] in the cursor column and in the cells at
    most: size, cursor line, pen, stream and shadow are the same. *)
Definition same_frame (this this' : Cursor.t) : Prop :=
  Cursor._width this' = Cursor._width this ∧
  Cursor._height this' = Cursor._height this ∧
  Cursor._y this' = Cursor._y this ∧
  Cursor._background this' = Cursor._background this ∧
  Cursor._foreground this' = Cursor._foreground this ∧
  Cursor._display this' = Cursor._display this ∧
  Cursor._stream this' = Cursor._stream this ∧
  Cursor._lastFrame this' = Cursor._lastFrame this.

(** ** Erasing, by index *)

(** The coordinates [(x, y)] of the rectangle have index [p]. *)
Definition rectangle_index (width x1 y1 x2 y2 : Z) (p : nat) : Prop :=
  Exists (λ y, Exists (λ x, Z.of_nat p = y * width + x) (seqZ x1 (x2 - x1 + 1)))
         (seqZ y1 (y2 - y1 + 1)).

(** ** Frames *)

(** Everything of a cursor but its grid. *)
Definition frame_of (this : Cursor.t) :=
  (Cursor._stream this, Cursor._width this, Cursor._height this,
   Cursor._x this, Cursor._y this, Cursor._background this,
   Cursor._foreground this, Cursor._display this, Cursor._lastFrame this).

(** Column and line of the grid position with index [p]. *)
Definition column_of (this : Cursor.t) (p : nat) : Z :=
  Z.of_nat p `mod` Cursor._width this.
Definition line_of (this : Cursor.t) (p : nat) : Z :=
  Z.of_nat p / Cursor._width this.

(** ** Motion *)

(** Rounding towards zero. *)
Definition Q_truncate (q : Q) : Z :=
  if Qlt_le_dec q 0 then Qceiling q else Qfloor q.

(** The cursor put at [(x, y)] with the pen [background], [foreground],
    [display]; stream, size, grid and shadow as in [this]. *)
Definition repen (x y : Z) (background foreground : string)
    (display : Display.t) (this : Cursor.t) : Cursor.t :=
  Cursor.mk (Cursor._stream this) (Cursor._width this) (Cursor._height this)
    x y background foreground display (Cursor._cells this)
    (Cursor._lastFrame this).

(** ** Colours of the cells *)

(** A colour field holds [none] or a name to which the table gives a
    truthy code. *)
Definition color_valid (COLORS : gmap string JSValue) (color : string) : Prop :=
  color = "none" ∨ truthy (COLORS !! color) = true.

Definition colors_valid (COLORS : gmap string JSValue) (cell : Cell.t) : Prop :=
  color_valid COLORS (Cell.getBackground cell) ∧
  color_valid COLORS (Cell.getForeground cell).

(** ** What the cells of the grid hold *)

(** Every cell holds exactly one character. *)
Definition one_char_each (this : Cursor.t) : Prop :=
  Forall (λ cell, String.length (Cell.getChar cell) = 1%nat) (Cursor._cells this).

(** A cell as the constructor of the screen makes it and [reset] leaves
    it: at (0, 0), a space, no colour and no style.  The dirty flag is
    free. *)
Definition unwritten (COLORS : gmap string JSValue) (cell : Cell.t) : Prop :=
  (Cell.getX cell, Cell.getY cell) = (0, 0) ∧
  Cell.getChar cell = " " ∧
  Cell.getBackground cell = normalized COLORS "none" ∧
  Cell.getForeground cell = normalized COLORS "none" ∧
  Cell.getDisplay cell = Display.mk false false false false false false.

(** Every cell stores the coordinates of its own position on the grid,
    unless it is an unwritten cell. *)
Definition coordinates_kept (COLORS : gmap string JSValue) (this : Cursor.t)
    : Prop :=
  ∀ p cell, Cursor._cells this !! p = Some cell →
    (Cell.getX cell, Cell.getY cell) = (column_of this p, line_of this p) ∨
    unwritten COLORS cell.

(** * Properties *)

(** Reading a field of a cursor that has just been updated. *)
Ltac cursor_simpl :=
  unfold Cursor.stream_write, Cursor.set_stream, Cursor.set_x, Cursor.set_y,
    Cursor.set_background, Cursor.set_foreground, Cursor.set_display,
    Cursor.set_cells, Cursor.set_lastFrame in *;
  cbn [Cursor._stream Cursor._width Cursor._height Cursor._x Cursor._y
       Cursor._background Cursor._foreground Cursor._display Cursor._cells
       Cursor._lastFrame] in *.

(** ** Arrays *)

Lemma array_get_set {A} (i j : nat) (v : A) (l : list (option A)) :
  array_get (array_set i v l) j =
  if decide (i = j) then Some v else array_get l j.
Proof.
  unfold array_get, array_set.
  destruct (decide (i < length l)%nat) as [Hi|Hi].
  - destruct (decide (i = j)) as [->|Hne].
    + by rewrite list_lookup_insert_eq.
    + by rewrite list_lookup_insert_ne.
  - destruct (decide (i = j)) as [<-|Hne].
    + rewrite lookup_app_r; [|lia].
      rewrite lookup_app_r; rewrite length_replicate; [|lia].
      by replace (i - length l - (i - length l))%nat with 0%nat by lia.
    + destruct (decide (j < length l)%nat) as [Hj|Hj].
      * by rewrite lookup_app_l.
      * rewrite lookup_app_r; [|lia].
        rewrite (lookup_ge_None_2 l j); [|lia].
        destruct (decide (j - length l < i - length l)%nat) as [Hlt|Hge].
        -- rewrite lookup_app_l; [|by rewrite length_replicate].
           by rewrite lookup_replicate_2.
        -- rewrite lookup_app_r; rewrite length_replicate; [|lia].
           rewrite lookup_ge_None_2; [done|]. simpl. lia.
Qed.

(** ** Flushing *)

Section Flush.

Variable COLORS : gmap string JSValue.

Let flush := Cursor.flush COLORS.
Let flush_cell := Cursor.flush_cell COLORS.

Lemma flushed_upto_0 (this : Cursor.t) : flushed_upto COLORS this 0 this.
Proof.
  split; try done. simpl. by rewrite app_nil_r.
Qed.

Lemma flushed_upto_S (this st : Cursor.t) (k : nat) :
  (k < length (Cursor._cells this))%nat →
  flushed_upto COLORS this k st →
  flushed_upto COLORS this (S k) (flush_cell st k).
Proof.
  intros Hk [Hw Hh Hx Hy Hb Hf Hd Hc Hl Hs].
  destruct (lookup_lt_is_Some_2 _ _ Hk) as [cell Hcell].
  assert (Hstk : Cursor._cells st !! k = Some cell).
  { rewrite Hc, lookup_app_r; rewrite length_fmap, length_take; [|lia].
    rewrite lookup_drop. rewrite <- Hcell. f_equal. lia. }
  assert (Hcells' :
    <[k := flushed_cell cell]> (Cursor._cells st) =
    (flushed_cell <$> take (S k) (Cursor._cells this)) ++
    drop (S k) (Cursor._cells this)).
  { rewrite Hc. rewrite (take_S_r _ _ _ Hcell), fmap_app, <- app_assoc. simpl.
    rewrite insert_app_r_alt; rewrite length_fmap, length_take; [|lia].
    replace (k - k `min` length (Cursor._cells this))%nat with 0%nat by lia.
    rewrite (drop_S _ _ _ Hcell). done. }
  assert (Hem : emitted COLORS this k =
    if Cell.isModified cell then
      let cellSeq := Cell.toString COLORS (Cell.setModified (Some false) cell) in
      if decide (Some cellSeq ≠ array_get (Cursor._lastFrame st) k)
      then Some cellSeq else None
    else None).
  { unfold emitted. rewrite Hcell. simpl. rewrite (Hl k).
    destruct (decide (k < k)%nat); [lia|done]. }
  assert (Hseq : omap (emitted COLORS this) (seq 0 (S k)) =
                 omap (emitted COLORS this) (seq 0 k) ++
                 match emitted COLORS this k with Some r => [r] | None => [] end).
  { rewrite seq_S, omap_app. simpl. by destruct (emitted COLORS this k). }
  assert (Hold : ∀ i,
    (if decide (i < k)%nat then
       match emitted COLORS this i with
       | Some cellSeq => Some cellSeq
       | None => array_get (Cursor._lastFrame this) i
       end
     else array_get (Cursor._lastFrame this) i) =
    if decide (k = i) then array_get (Cursor._lastFrame st) k
    else if decide (i < S k)%nat then
       match emitted COLORS this i with
       | Some cellSeq => Some cellSeq
       | None => array_get (Cursor._lastFrame this) i
       end
     else array_get (Cursor._lastFrame this) i).
  { intros i. destruct (decide (k = i)) as [<-|Hne].
    - by rewrite Hl.
    - repeat case_decide; try done; lia. }
  unfold flush_cell, Cursor.flush_cell. rewrite Hstk.
  unfold flushed_cell in Hcells'.
  destruct (Cell.isModified cell) eqn:Hmod; cbv zeta in Hem |- *.
  - cursor_simpl. case_decide as Hdiff.
    + split; cursor_simpl; try done.
      * intros i. rewrite array_get_set.
        destruct (decide (k = i)) as [<-|Hne].
        -- rewrite decide_True by lia. by rewrite Hem.
        -- rewrite Hl, Hold. by rewrite decide_False.
      * rewrite Hs, Hseq, Hem. by rewrite app_assoc.
    + split; cursor_simpl; try done.
      * intros i. rewrite Hl, Hold.
        destruct (decide (k = i)) as [<-|Hne]; [|done].
        rewrite decide_True by lia. rewrite Hem, (Hl k).
        by rewrite decide_False by lia.
      * rewrite Hs, Hseq, Hem. by rewrite app_nil_r.
  - rewrite list_insert_id in Hcells' by done.
    split; cursor_simpl; try done.
    + intros i. rewrite Hl, Hold.
      destruct (decide (k = i)) as [<-|Hne]; [|done].
      rewrite decide_True by lia. rewrite Hem, (Hl k).
      by rewrite decide_False by lia.
    + rewrite Hs, Hseq, Hem. by rewrite app_nil_r.
Qed.

Lemma flushed_upto_loop (this : Cursor.t) (k : nat) :
  (k ≤ length (Cursor._cells this))%nat →
  flushed_upto COLORS this k (foldl flush_cell this (seq 0 k)).
Proof.
  induction k as [|k IH]; intros Hk.
  - apply flushed_upto_0.
  - rewrite seq_S, foldl_app. simpl.
    apply flushed_upto_S; [lia|]. apply IH. lia.
Qed.

Lemma flushed_upto_flush (this : Cursor.t) :
  flushed_upto COLORS this (length (Cursor._cells this)) (flush this).
Proof. by apply flushed_upto_loop. Qed.

End Flush.

Section FlushProperties.

Variable COLORS : gmap string JSValue.

Lemma flush_cell_clean (this : Cursor.t) (i : nat) :
  all_clean this → Cursor.flush_cell COLORS this i = this.
Proof.
  intros Hclean. unfold Cursor.flush_cell.
  destruct (Cursor._cells this !! i) as [cell|] eqn:Hcell; [|done].
  apply list_elem_of_lookup_2 in Hcell.
  by rewrite (proj1 (Forall_forall _ _) Hclean cell Hcell).
Qed.

Lemma flush_clean (this : Cursor.t) : all_clean this → Cursor.flush COLORS this = this.
Proof.
  intros Hclean. unfold Cursor.flush.
  induction (seq 0 (length (Cursor._cells this))) as [|i l IH]; [done|].
  simpl. by rewrite flush_cell_clean.
Qed.

Lemma flushed_cell_clean (cell : Cell.t) :
  Cell.isModified (flushed_cell cell) = false.
Proof. unfold flushed_cell. by destruct (Cell.isModified cell) eqn:H. Qed.

Lemma flush_cells (this : Cursor.t) :
  Cursor._cells (Cursor.flush COLORS this) = flushed_cell <$> Cursor._cells this.
Proof.
  rewrite (upto_cells _ _ _ _ (flushed_upto_flush COLORS this)).
  by rewrite firstn_all, drop_all, app_nil_r.
Qed.

Lemma flush_all_clean (this : Cursor.t) : all_clean (Cursor.flush COLORS this).
Proof.
  unfold all_clean. rewrite flush_cells. apply Forall_fmap, Forall_true.
  intros cell. apply flushed_cell_clean.
Qed.

Lemma emitted_out_of_range (this : Cursor.t) (i : nat) :
  (length (Cursor._cells this) ≤ i)%nat → emitted COLORS this i = None.
Proof. intros H. unfold emitted. by rewrite lookup_ge_None_2. Qed.

Lemma flush_lastFrame (this : Cursor.t) (i : nat) :
  array_get (Cursor._lastFrame (Cursor.flush COLORS this)) i =
  match emitted COLORS this i with
  | Some cellSeq => Some cellSeq
  | None => array_get (Cursor._lastFrame this) i
  end.
Proof.
  rewrite (upto_lastFrame _ _ _ _ (flushed_upto_flush COLORS this)).
  case_decide as Hi; [done|].
  rewrite emitted_out_of_range; [done|lia].
Qed.

Lemma flush_stream (this : Cursor.t) :
  Cursor._stream (Cursor.flush COLORS this) =
  Cursor._stream this ++
  omap (emitted COLORS this) (seq 0 (length (Cursor._cells this))).
Proof. apply (upto_stream _ _ _ _ (flushed_upto_flush COLORS this)). Qed.

End FlushProperties.

Section FlushProtocol.

Variable COLORS : gmap string JSValue.

Lemma flush_cell_lengths (st : Cursor.t) (i : nat) :
  (i < length (Cursor._lastFrame st))%nat →
  length (Cursor._cells (Cursor.flush_cell COLORS st i)) = length (Cursor._cells st) ∧
  length (Cursor._lastFrame (Cursor.flush_cell COLORS st i)) =
    length (Cursor._lastFrame st).
Proof.
  intros Hi. unfold Cursor.flush_cell.
  destruct (Cursor._cells st !! i) as [cell|]; [|done].
  destruct (Cell.isModified cell); [|done].
  cbv zeta. cursor_simpl. case_decide; cursor_simpl.
  - unfold array_set. rewrite decide_True by done.
    by rewrite !length_insert.
  - by rewrite length_insert.
Qed.

Lemma flush_loop_lengths (l : list nat) (st : Cursor.t) :
  Forall (λ i, i < length (Cursor._lastFrame st))%nat l →
  length (Cursor._cells (foldl (Cursor.flush_cell COLORS) st l)) =
    length (Cursor._cells st) ∧
  length (Cursor._lastFrame (foldl (Cursor.flush_cell COLORS) st l)) =
    length (Cursor._lastFrame st).
Proof.
  revert st. induction l as [|i l IH]; intros st Hl; [done|].
  apply Forall_cons in Hl as [Hi Hl]. simpl.
  destruct (flush_cell_lengths st i Hi) as [Hc Hs].
  destruct (IH (Cursor.flush_cell COLORS st i)) as [Hc' Hs'].
  - by rewrite Hs.
  - by rewrite Hc', Hs', Hc, Hs.
Qed.

Lemma flush_frame (this : Cursor.t) :
  Cursor._width (Cursor.flush COLORS this) = Cursor._width this ∧
  Cursor._height (Cursor.flush COLORS this) = Cursor._height this ∧
  Cursor._x (Cursor.flush COLORS this) = Cursor._x this ∧
  Cursor._y (Cursor.flush COLORS this) = Cursor._y this ∧
  Cursor._background (Cursor.flush COLORS this) = Cursor._background this ∧
  Cursor._foreground (Cursor.flush COLORS this) = Cursor._foreground this ∧
  Cursor._display (Cursor.flush COLORS this) = Cursor._display this.
Proof. by destruct (flushed_upto_flush COLORS this). Qed.

Lemma flush_well_formed (this : Cursor.t) :
  well_formed this → well_formed (Cursor.flush COLORS this).
Proof.
  intros [Hc Hs]. destruct (flush_frame this) as (Hw & Hh & _).
  destruct (flush_loop_lengths (seq 0 (length (Cursor._cells this))) this)
    as [Hc' Hs'].
  { apply Forall_forall. intros i Hi%list_elem_of_In%in_seq. lia. }
  unfold well_formed. rewrite Hw, Hh. unfold Cursor.flush.
  by rewrite Hc', Hs'.
Qed.

(** C1.  Flushing a well-formed screen goes through the positions
    [0 .. width * height - 1] in increasing order.  A clean cell is skipped;
    a dirty cell has its flag cleared and is rendered, and the rendering is
    appended to the stream and stored in the shadow exactly when it differs
    from the shadow entry of that position; otherwise nothing is written and
    the entry stays. *)
Theorem flush_protocol (this : Cursor.t) :
  well_formed this →
  Cursor._cells (Cursor.flush COLORS this) = flushed_cell <$> Cursor._cells this ∧
  (∀ i : nat,
     array_get (Cursor._lastFrame (Cursor.flush COLORS this)) i =
     match emitted COLORS this i with
     | Some cellSeq => Some cellSeq
     | None => array_get (Cursor._lastFrame this) i
     end) ∧
  Cursor._stream (Cursor.flush COLORS this) =
    Cursor._stream this ++
    omap (emitted COLORS this)
         (seq 0 (Z.to_nat (Cursor._width this * Cursor._height this))) ∧
  length (Cursor._lastFrame (Cursor.flush COLORS this)) =
    Z.to_nat (Cursor._width this * Cursor._height this).
Proof.
  intros Hwf. split; [apply flush_cells|].
  split; [apply flush_lastFrame|].
  split.
  - rewrite flush_stream. by destruct Hwf as [-> _].
  - destruct (flush_well_formed this Hwf) as [_ Hs].
    destruct (flush_frame this) as (Hw & Hh & _).
    by rewrite Hs, Hw, Hh.
Qed.

End FlushProtocol.

Lemma flush_protocol_witness :
  well_formed screen_Hi ∧
  Cursor._stream (Cursor.flush SPEC_COLORS screen_Hi) =
    [ ESC +:+ "[2;2f" +:+ ESC +:+ "[48;5;15m" +:+ ESC +:+ "[38;5;11mH" +:+ ESC +:+ "[0m";
      ESC +:+ "[2;3f" +:+ ESC +:+ "[48;5;15m" +:+ ESC +:+ "[38;5;11mi" +:+ ESC +:+ "[0m" ].
Proof.
  assert (Hwf : well_formed screen_Hi) by (split; reflexivity).
  split; [exact Hwf|].
  destruct (flush_protocol SPEC_COLORS screen_Hi Hwf) as (_ & _ & Hs & _).
  rewrite Hs. reflexivity.
Defined.

Section FlushTwice.

Variable COLORS : gmap string JSValue.

Lemma omap_not_nil {A B} (f : A → option B) (l : list A) :
  omap f l ≠ [] → ∃ x y, x ∈ l ∧ f x = Some y.
Proof.
  induction l as [|a l IH]; [done|]. simpl.
  destruct (f a) as [y|] eqn:Ha.
  - intros _. exists a, y. split; [by left|done].
  - intros H. destruct (IH H) as (x & y & Hx & Hy).
    exists x, y. split; [by right|done].
Qed.

Lemma stream_grows (stream out : list string) :
  stream ++ out ≠ stream ↔ out ≠ [].
Proof.
  split.
  - intros H ->. by rewrite app_nil_r in H.
  - intros H Heq. apply H, (app_inv_head stream). by rewrite app_nil_r.
Qed.

(** C4, as the code has it.  A second flush right after a flush changes
    nothing: it writes nothing to the stream and leaves the whole state as
    the first flush left it.  The first flush sends the renderings of the
    dirty cells that differ from their shadow entries, so it writes
    something exactly when there is a dirty cell whose rendering is not its
    shadow entry; a dirty cell rendered as its shadow entry sends nothing,
    and neither does a screen with no dirty cell. *)
Theorem flush_idempotent (this : Cursor.t) :
  Cursor._stream (Cursor.flush COLORS (Cursor.flush COLORS this)) =
    Cursor._stream (Cursor.flush COLORS this) ∧
  Cursor.flush COLORS (Cursor.flush COLORS this) = Cursor.flush COLORS this ∧
  Cursor._stream (Cursor.flush COLORS this) =
    Cursor._stream this ++
    omap (emitted COLORS this) (seq 0 (length (Cursor._cells this))) ∧
  (Cursor._stream (Cursor.flush COLORS this) ≠ Cursor._stream this ↔
   ∃ i cell,
     Cursor._cells this !! i = Some cell ∧
     Cell.isModified cell = true ∧
     Some (Cell.toString COLORS cell) ≠ array_get (Cursor._lastFrame this) i) ∧
  (all_clean this → Cursor._stream (Cursor.flush COLORS this) = Cursor._stream this).
Proof.
  split_and!.
  - by rewrite (flush_clean COLORS _ (flush_all_clean COLORS this)).
  - apply flush_clean, flush_all_clean.
  - apply flush_stream.
  - rewrite flush_stream, stream_grows. split.
    + intros Hne. destruct (omap_not_nil _ _ Hne) as (i & r & _ & Hr).
      unfold emitted in Hr.
      destruct (Cursor._cells this !! i) as [cell|] eqn:Hcell; [|done].
      simpl in Hr. destruct (Cell.isModified cell) eqn:Hmod; [|done].
      case_decide as Hdiff; [|done].
      exists i, cell. split; [done|]. split; [done|]. exact Hdiff.
    + intros (i & cell & Hcell & Hmod & Hdiff).
      assert (Hem : emitted COLORS this i = Some (Cell.toString COLORS cell)).
      { unfold emitted. rewrite Hcell. simpl. rewrite Hmod.
        case_decide as Hd; [reflexivity|]. exfalso. apply Hdiff. exact Hd. }
      assert (Hin : Cell.toString COLORS cell ∈
                    omap (emitted COLORS this) (seq 0 (length (Cursor._cells this)))).
      { apply list_elem_of_omap. exists i. split; [|done].
        apply elem_of_seq. apply lookup_lt_Some in Hcell. lia. }
      intros Hnil. rewrite Hnil in Hin. by apply elem_of_nil in Hin.
  - intros Hclean. by rewrite flush_clean.
Qed.

Lemma constructor_well_formed (width height : Z) :
  well_formed (Cursor.constructor COLORS width height).
Proof. split; simpl; by rewrite length_replicate. Qed.

Lemma constructor_all_clean (width height : Z) :
  all_clean (Cursor.constructor COLORS width height).
Proof.
  unfold all_clean. simpl. apply Forall_replicate. reflexivity.
Qed.

(** C9.  Every cell of a new screen is clean, so that flushing a new screen
    writes nothing and leaves every entry of the shadow the empty string. *)
Theorem fresh_screen_flush (width height : Z) :
  all_clean (Cursor.constructor COLORS width height) ∧
  Cursor._stream (Cursor.flush COLORS (Cursor.constructor COLORS width height)) = [] ∧
  Cursor._lastFrame (Cursor.flush COLORS (Cursor.constructor COLORS width height)) =
    replicate (Z.to_nat (width * height)) (Some "").
Proof.
  pose proof (constructor_all_clean width height) as Hclean.
  split; [done|]. by rewrite flush_clean.
Qed.

End FlushTwice.

Lemma flush_idempotent_witness :
  (∃ i cell,
     Cursor._cells screen_Hi !! i = Some cell ∧
     Cell.isModified cell = true ∧
     Some (Cell.toString SPEC_COLORS cell) ≠
       array_get (Cursor._lastFrame screen_Hi) i) ∧
  Cursor._stream (Cursor.flush SPEC_COLORS screen_Hi) ≠ Cursor._stream screen_Hi ∧
  Cursor._stream (Cursor.flush SPEC_COLORS (Cursor.flush SPEC_COLORS screen_Hi)) =
    Cursor._stream (Cursor.flush SPEC_COLORS screen_Hi) ∧
  all_clean screen_3x2 ∧
  Cursor._stream (Cursor.flush SPEC_COLORS screen_3x2) = Cursor._stream screen_3x2.
Proof.
  assert (Hdirty : ∃ i cell,
     Cursor._cells screen_Hi !! i = Some cell ∧
     Cell.isModified cell = true ∧
     Some (Cell.toString SPEC_COLORS cell) ≠
       array_get (Cursor._lastFrame screen_Hi) i).
  { exists 4%nat, (Cell.mk "H" 1 1 "WHITE" "YELLOW"
                     (Display.mk false false false false false false) true).
    split; [reflexivity|]. split; [reflexivity|]. vm_compute. discriminate. }
  assert (Hclean : all_clean screen_3x2) by (repeat constructor).
  destruct (flush_idempotent SPEC_COLORS screen_Hi) as (Hsecond & _ & _ & Hiff & _).
  split; [exact Hdirty|]. split; [exact (proj2 Hiff Hdirty)|].
  split; [exact Hsecond|]. split; [exact Hclean|].
  destruct (flush_idempotent SPEC_COLORS screen_3x2) as (_ & _ & _ & _ & Hsilent).
  exact (Hsilent Hclean).
Defined.

(** C4 fails on a redrawn cell: the two cells of [screen_Hi_redrawn] are
    dirty, and the flush sends nothing, their renderings being what the
    shadow already holds. *)
Lemma flush_redrawn_counterexample :
  Exists (λ cell, Cell.isModified cell = true) (Cursor._cells screen_Hi_redrawn) ∧
  Cursor._stream (Cursor.flush SPEC_COLORS screen_Hi_redrawn) =
    Cursor._stream screen_Hi_redrawn.
Proof.
  split; [|vm_compute; reflexivity].
  apply Exists_exists.
  exists (Cell.mk "H" 1 1 "WHITE" "YELLOW"
            (Display.mk false false false false false false) true).
  split; [|reflexivity]. apply list_elem_of_lookup. exists 4%nat.
  vm_compute. reflexivity.
Qed.

(** The scenario of the specification: on a new 80 x 24 screen,
    [moveTo(10, 10).write("Hi").flush()] sends the two cells, and flushing
    again sends nothing more. *)
Example flush_Hi_80x24 :
  let screen :=
    default (Cursor.constructor SPEC_COLORS 80 24)
      (Cursor.write SPEC_COLORS "Hi"
         (Cursor.moveTo 10 10 (Cursor.constructor SPEC_COLORS 80 24))) in
  Cursor._stream (Cursor.flush SPEC_COLORS screen) =
    [ ESC +:+ "[11;11fH" +:+ ESC +:+ "[0m"; ESC +:+ "[11;12fi" +:+ ESC +:+ "[0m" ] ∧
  Cursor._stream (Cursor.flush SPEC_COLORS (Cursor.flush SPEC_COLORS screen)) =
    [ ESC +:+ "[11;11fH" +:+ ESC +:+ "[0m"; ESC +:+ "[11;12fi" +:+ ESC +:+ "[0m" ].
Proof. vm_compute. done. Qed.

(** ** Coordinates *)

(** C8.  On the grid, the index of a position determines the position:
    [getXYFromPointer] undoes [getPointerFromXY], the index being
    [y * width + x] and its coordinates [(index mod width, index div width)]. *)
Theorem coordinate_round_trip (this : Cursor.t) (x y : Z) :
  0 <= x < Cursor._width this →
  0 <= y < Cursor._height this →
  Cursor.getXYFromPointer (Cursor.getPointerFromXY (Some x) (Some y) this) this = (x, y) ∧
  Cursor.getPointerFromXY (Some x) (Some y) this = y * Cursor._width this + x ∧
  ∀ index : Z,
    Cursor.getXYFromPointer index this =
    (index mod Cursor._width this, index / Cursor._width this).
Proof.
  intros Hx Hy. unfold Cursor.getXYFromPointer, Cursor.getPointerFromXY. simpl.
  assert (Hdiv : (y * Cursor._width this + x) / Cursor._width this = y).
  { rewrite Z.div_add_l by lia. rewrite Z.div_small by lia. lia. }
  split; [|split; [done|]].
  - rewrite Hdiv. f_equal. lia.
  - intros index. f_equal. rewrite Zmod_eq_full by lia. done.
Qed.

Lemma coordinate_round_trip_witness :
  0 <= 2 < Cursor._width screen_3x2 ∧
  0 <= 1 < Cursor._height screen_3x2 ∧
  Cursor.getXYFromPointer (Cursor.getPointerFromXY (Some 2) (Some 1) screen_3x2)
    screen_3x2 = (2, 1).
Proof.
  assert (Hx : 0 <= 2 < Cursor._width screen_3x2) by (simpl; lia).
  assert (Hy : 0 <= 1 < Cursor._height screen_3x2) by (simpl; lia).
  split; [exact Hx|]. split; [exact Hy|].
  exact (proj1 (coordinate_round_trip screen_3x2 2 1 Hx Hy)).
Defined.

(** ** Cells *)

Section CellProperties.

Variable COLORS : gmap string JSValue.

(** C6.  The rendering of a cell is, in this order: the position sequence
    for row [y + 1] and column [x + 1]; the background code unless the
    background is [none]; the foreground code unless the foreground is
    [none]; the codes of the flags that are set, in the order bold, dim,
    underlined, blink, reverse, hidden; the character; the reset code. *)
Theorem render_format (cell : Cell.t) :
  Cell.toString COLORS cell = concat_strings (render_segments COLORS cell).
Proof.
  destruct cell as [char x y background foreground [b d u bl r h] modified].
  unfold Cell.toString, render_segments, concat_strings, style_sequences.
  cbn [Cell.getChar Cell.getX Cell.getY Cell.getBackground Cell.getForeground
       Cell.getDisplay Cell._char Cell._x Cell._y Cell._background
       Cell._foreground Cell._display].
  destruct (String.eqb_spec background "none") as [Hb|Hb];
    destruct (String.eqb_spec foreground "none") as [Hf|Hf];
    repeat case_decide; try done;
    destruct b, d, u, bl, r, h; reflexivity.
Qed.

(** What [setBackground] and [setForeground] store for a name. *)
Lemma setBackground_stored (colorName : string) (cell : Cell.t) :
  Cell.getBackground (Cell.setBackground COLORS (Some colorName) cell) =
  if truthy (COLORS !! toUpperCase colorName) then toUpperCase colorName
  else "none".
Proof. reflexivity. Qed.

Lemma setForeground_stored (colorName : string) (cell : Cell.t) :
  Cell.getForeground (Cell.setForeground COLORS (Some colorName) cell) =
  if truthy (COLORS !! toUpperCase colorName) then toUpperCase colorName
  else "none".
Proof. reflexivity. Qed.

Lemma reset_unfold (cell : Cell.t) :
  Cell.reset COLORS cell =
  Cell.mk " " (Cell._x cell) (Cell._y cell)
    (if truthy (COLORS !! "NONE") then "NONE" else "none")
    (if truthy (COLORS !! "NONE") then "NONE" else "none")
    (Display.mk false false false false false false) true.
Proof. reflexivity. Qed.

(** C10.  [reset] leaves the coordinates of the cell alone: it blanks the
    character, the colours and the six flags and marks the cell dirty, so
    that the cell is next rendered as a space at the coordinates it had.
    ([NONE] is not a colour of the table.) *)
Theorem reset_keeps_coordinates (cell : Cell.t) :
  truthy (COLORS !! "NONE") = false →
  Cell._x (Cell.reset COLORS cell) = Cell._x cell ∧
  Cell._y (Cell.reset COLORS cell) = Cell._y cell ∧
  Cell._char (Cell.reset COLORS cell) = " " ∧
  Cell._background (Cell.reset COLORS cell) = "none" ∧
  Cell._foreground (Cell.reset COLORS cell) = "none" ∧
  Cell._display (Cell.reset COLORS cell) =
    Display.mk false false false false false false ∧
  Cell._modified (Cell.reset COLORS cell) = true ∧
  Cell.toString COLORS (Cell.setModified (Some false) (Cell.reset COLORS cell)) =
    position_sequence (Cell._y cell + 1) (Cell._x cell + 1) +:+ " " +:+ ESC +:+ "[0m".
Proof.
  intros Hnone. rewrite reset_unfold, Hnone. repeat (split; [done|]).
  reflexivity.
Qed.

(** C7, as the code has it.  [setChar] keeps the first unit of a string
    that has one, and stores a space when the argument is left out; of the
    empty string it keeps the empty string. *)
Theorem setChar_first_unit (cell : Cell.t) :
  (∀ (c : ascii) (rest : string),
     Cell.getChar (Cell.setChar (Some (String c rest)) cell) = String c EmptyString) ∧
  Cell.getChar (Cell.setChar (Some "hello") cell) = "h" ∧
  Cell.getChar (Cell.setChar None cell) = " " ∧
  Cell.getChar (Cell.setChar (Some "") cell) = "".
Proof.
  split_and!; try reflexivity.
  intros c rest. unfold Cell.getChar, Cell.setChar. simpl. by destruct rest.
Qed.

End CellProperties.

Lemma reset_keeps_coordinates_witness :
  truthy (SPEC_COLORS !! "NONE") = false ∧
  Cell._x (Cell.reset SPEC_COLORS (Cell.setX (Some 7%Q) blank_cell)) = 7.
Proof.
  assert (H : truthy (SPEC_COLORS !! "NONE") = false) by reflexivity.
  split; [exact H|].
  exact (proj1 (reset_keeps_coordinates SPEC_COLORS (Cell.setX (Some 7%Q) blank_cell) H)).
Defined.

(** C7 fails at the empty string: [setChar("")] stores the empty string,
    not a space. *)
Lemma setChar_empty_counterexample :
  Cell.getChar (Cell.setChar (Some "") blank_cell) ≠ " ".
Proof. discriminate. Qed.

(** C5 at [black]: the table has the name, with code 0, and [none] is what
    the cell stores for it, as background and as foreground; the rendering
    has no colour code.  A name with a code other than 0 is kept. *)
Theorem setBackground_black :
  SPEC_COLORS !! toUpperCase "black" = Some (JSNum 0) ∧
  Cell.getBackground (Cell.setBackground SPEC_COLORS (Some "black") blank_cell) = "none" ∧
  Cell.getForeground (Cell.setForeground SPEC_COLORS (Some "black") blank_cell) = "none" ∧
  Cell.toString SPEC_COLORS (Cell.setBackground SPEC_COLORS (Some "black") blank_cell) =
    ESC +:+ "[1;1f " +:+ ESC +:+ "[0m" ∧
  Cell.getBackground (Cell.setBackground SPEC_COLORS (Some "white") blank_cell) = "WHITE".
Proof. by split_and!. Qed.

(** Were the code of black the string ["0"], which is truthy, the name
    would be kept and rendered. *)
Example setBackground_black_string_code :
  let COLORS : gmap string JSValue := {[ "BLACK" := JSStr "0" ]} in
  Cell.getBackground (Cell.setBackground COLORS (Some "black") blank_cell) = "BLACK" ∧
  Cell.toString COLORS (Cell.setBackground COLORS (Some "black") blank_cell) =
    ESC +:+ "[1;1f" +:+ ESC +:+ "[48;5;0m " +:+ ESC +:+ "[0m".
Proof. by split_and!. Qed.

(** ** Writing *)

Section Write.

Variable COLORS : gmap string JSValue.

Lemma on_grid_pointer (this : Cursor.t) (x y : Z) :
  well_formed this → on_grid this x y →
  0 <= y * Cursor._width this + x ∧
  (Z.to_nat (y * Cursor._width this + x) < length (Cursor._cells this))%nat.
Proof.
  intros [Hc _] [Hx Hy]. rewrite Hc. split; [nia|].
  apply Nat2Z.inj_lt. rewrite !Z2Nat.id by nia. nia.
Qed.

(** One round of the loop of [write]. *)
Lemma write_char_step (char : ascii) (this : Cursor.t) :
  well_formed this →
  Cursor.write_char COLORS (String char EmptyString) this =
  Some (Cursor.set_x (Cursor._x this + 1)
          (if decide (on_grid this (Cursor._x this) (Cursor._y this)) then
             Cursor.set_cells
               (<[Z.to_nat (Cursor._y this * Cursor._width this + Cursor._x this) :=
                  pen_cell COLORS this char (Cursor._x this)]> (Cursor._cells this))
               this
           else this)).
Proof.
  intros Hwf. unfold Cursor.write_char, Cursor.getPointerFromXY, on_grid.
  cbn [default from_option id]. cbv zeta.
  destruct (decide (0 <= Cursor._x this ∧ Cursor._x this < Cursor._width this ∧
                    0 <= Cursor._y this ∧ Cursor._y this < Cursor._height this))
    as [Hin|Hout].
  - rewrite decide_True by lia.
    destruct (on_grid_pointer this (Cursor._x this) (Cursor._y this) Hwf)
      as [Hp Hlt]; [unfold on_grid; lia|].
    unfold Cursor.cell_at. rewrite decide_True by done.
    destruct (lookup_lt_is_Some_2 _ _ Hlt) as [cell ->]. simpl.
    do 3 f_equal. unfold pen_cell, Cell.setModified, Cell.setDisplay,
      Cell.setForeground, Cell.setBackground, Cell.setY, Cell.setX,
      Cell.setChar, Math_floor, normalized.
    cbn [default from_option id Cell._char Cell._x Cell._y Cell._background
         Cell._foreground Cell._display Cell._modified substring].
    rewrite !Qfloor_Z. by destruct (Cursor._display this).
  - by rewrite decide_False by lia.
Qed.

Lemma write_loop_error (l : list string) :
  foldl (λ acc char, acc ≫= Cursor.write_char COLORS char) None l = None.
Proof. induction l as [|c l IH]; [done|exact IH]. Qed.

Lemma write_cons (char : ascii) (rest : string) (this : Cursor.t) :
  Cursor.write COLORS (String char rest) this =
  Cursor.write_char COLORS (String char EmptyString) this ≫= Cursor.write COLORS rest.
Proof.
  unfold Cursor.write.
  change (Cursor.chars (String char rest))
    with (String char EmptyString :: Cursor.chars rest).
  cbn [foldl].
  change (Some this ≫= Cursor.write_char COLORS (String char EmptyString))
    with (Cursor.write_char COLORS (String char EmptyString) this).
  destruct (Cursor.write_char COLORS (String char EmptyString) this) as [st|].
  - reflexivity.
  - apply write_loop_error.
Qed.

End Write.

Section WriteProperties.

Variable COLORS : gmap string JSValue.

Lemma write_char_fields (char : ascii) (this : Cursor.t) :
  well_formed this →
  ∃ st,
    Cursor.write_char COLORS (String char EmptyString) this = Some st ∧
    well_formed st ∧
    same_frame this st ∧
    Cursor._x st = Cursor._x this + 1 ∧
    Cursor._cells st =
      if decide (on_grid this (Cursor._x this) (Cursor._y this)) then
        <[Z.to_nat (Cursor._y this * Cursor._width this + Cursor._x this) :=
          pen_cell COLORS this char (Cursor._x this)]> (Cursor._cells this)
      else Cursor._cells this.
Proof.
  intros Hwf. eexists. split; [by apply write_char_step|].
  destruct Hwf as [Hc Hs]. unfold well_formed, same_frame.
  case_decide; cursor_simpl; rewrite ?length_insert; done.
Qed.

Lemma pen_cell_same_frame (this st : Cursor.t) (char : ascii) (x : Z) :
  same_frame this st → pen_cell COLORS st char x = pen_cell COLORS this char x.
Proof.
  intros (_ & _ & Hy & Hb & Hf & Hd & _). unfold pen_cell.
  by rewrite Hy, Hb, Hf, Hd.
Qed.

Lemma same_frame_trans (a b c : Cursor.t) :
  same_frame a b → same_frame b c → same_frame a c.
Proof.
  unfold same_frame. intros (?&?&?&?&?&?&?&?) (?&?&?&?&?&?&?&?).
  split_and!; congruence.
Qed.

(** After the first character, what is written at [p] by the rest of the
    data is what the whole data writes there, except at the cursor. *)
Lemma written_at_cons (this st : Cursor.t) (char : ascii) (rest : string) (p : nat) :
  same_frame this st →
  Cursor._x st = Cursor._x this + 1 →
  Z.of_nat p ≠ Cursor._y this * Cursor._width this + Cursor._x this →
  written_at st rest p = written_at this (String char rest) p.
Proof.
  intros (Hw & Hh & Hy & _) Hx Hp. unfold written_at, on_grid.
  rewrite Hw, Hh, Hy, Hx.
  set (k := Z.of_nat p - (Cursor._y this * Cursor._width this + Cursor._x this)).
  replace (Z.of_nat p - (Cursor._y this * Cursor._width this + (Cursor._x this + 1)))
    with (k - 1) by lia.
  replace (Cursor._x this + 1 + (k - 1)) with (Cursor._x this + k) by lia.
  assert (Hk : k ≠ 0) by lia.
  destruct (decide (0 <= k)) as [Hpos|Hneg].
  - replace (Z.to_nat k) with (S (Z.to_nat (k - 1))) by lia. simpl.
    repeat case_decide; try done; lia.
  - rewrite !decide_False by lia. done.
Qed.

Lemma written_at_cursor (this st : Cursor.t) (rest : string) (p : nat) :
  same_frame this st →
  Cursor._x st = Cursor._x this + 1 →
  Z.of_nat p = Cursor._y this * Cursor._width this + Cursor._x this →
  written_at st rest p = None.
Proof.
  intros (Hw & Hh & Hy & _) Hx Hp. unfold written_at, on_grid.
  rewrite Hw, Hy, Hx. rewrite decide_False; [done|lia].
Qed.

Lemma written_at_here (this : Cursor.t) (char : ascii) (rest : string) (p : nat) :
  Z.of_nat p = Cursor._y this * Cursor._width this + Cursor._x this →
  written_at this (String char rest) p =
  if decide (on_grid this (Cursor._x this) (Cursor._y this))
  then Some (char, Cursor._x this) else None.
Proof.
  intros Hp. unfold written_at, on_grid. rewrite Hp.
  replace (Cursor._y this * Cursor._width this + Cursor._x this -
           (Cursor._y this * Cursor._width this + Cursor._x this)) with 0 by lia.
  rewrite Z.add_0_r. simpl.
  repeat case_decide; try done; lia.
Qed.

(** The cells after [write], index by index. *)
Lemma write_cells (data : string) (this : Cursor.t) :
  well_formed this →
  ∃ this',
    Cursor.write COLORS data this = Some this' ∧
    well_formed this' ∧
    same_frame this this' ∧
    Cursor._x this' = Cursor._x this + Z.of_nat (String.length data) ∧
    ∀ p : nat,
      Cursor._cells this' !! p =
      (λ cell,
         match written_at this data p with
         | Some (char, x) => pen_cell COLORS this char x
         | None => cell
         end) <$> Cursor._cells this !! p.
Proof.
  revert this. induction data as [|char rest IH]; intros this Hwf.
  - exists this. split; [done|]. split; [done|]. split; [done|].
    split; [simpl; lia|]. intros p.
    assert (written_at this "" p = None) as ->.
    { unfold written_at. by case_decide. }
    by destruct (Cursor._cells this !! p).
  - destruct (write_char_fields char this Hwf) as (st & Hst & Hwf1 & Hsf1 & Hx1 & Hc1).
    destruct (IH st Hwf1) as (this' & Hwrite & Hwf' & Hsf' & Hx' & Hc').
    exists this'. split; [by rewrite write_cons, Hst|].
    split; [done|]. split; [by eapply same_frame_trans|].
    split; [rewrite Hx', Hx1; simpl String.length; lia|].
    intros p. rewrite Hc'.
    destruct (decide (Z.of_nat p =
                      Cursor._y this * Cursor._width this + Cursor._x this))
      as [Hp|Hp].
    + rewrite (written_at_cursor this st rest p Hsf1 Hx1 Hp).
      rewrite (written_at_here this char rest p Hp), Hc1.
      case_decide as Hgrid.
      * destruct (on_grid_pointer this _ _ Hwf Hgrid) as [_ Hlt].
        rewrite <- Hp, Nat2Z.id in *.
        rewrite list_lookup_insert_eq by done.
        destruct (lookup_lt_is_Some_2 _ _ Hlt) as [cell ->]. done.
      * by destruct (Cursor._cells this !! p).
    + rewrite (written_at_cons this st char rest p Hsf1 Hx1 Hp).
      assert (Cursor._cells st !! p = Cursor._cells this !! p) as ->.
      { rewrite Hc1. case_decide as Hgrid; [|done].
        destruct (on_grid_pointer this _ _ Hwf Hgrid) as [Hpos _].
        rewrite list_lookup_insert_ne; [done|lia]. }
      destruct (Cursor._cells this !! p) as [cell|]; [|done]. simpl.
      destruct (written_at this (String char rest) p) as [[ch x]|]; [|done].
      by rewrite (pen_cell_same_frame this st).
Qed.

End WriteProperties.

Section WriteTheorem.

Variable COLORS : gmap string JSValue.


End WriteTheorem.


(** ** Erasing *)

(** C2 on a 3 x 2 screen showing [Hi] on its second line.  Column 4 is
    not a column of the grid, yet [erase(4, 0, 4, 0)] resets the cell of
    index 4, which is the cell at (1, 1) holding [H]: the next flush blanks
    it. *)
Theorem erase_off_grid :
  let this := Cursor.flush SPEC_COLORS screen_Hi in
  (Cursor._width this, Cursor._height this) = (3, 2) ∧
  Cursor.getXYFromPointer 4 this = (1, 1) ∧
  Cell.getChar <$> Cursor._cells this !! 4%nat = Some "H" ∧
  Cursor._cells (Cursor.erase SPEC_COLORS 4 0 4 0 this) !! 4%nat =
    Cell.reset SPEC_COLORS <$> Cursor._cells this !! 4%nat ∧
  Cell.getChar <$> Cursor._cells (Cursor.erase SPEC_COLORS 4 0 4 0 this) !! 4%nat =
    Some " " ∧
  Cursor._stream (Cursor.flush SPEC_COLORS (Cursor.erase SPEC_COLORS 4 0 4 0 this)) =
    Cursor._stream this ++ [ESC +:+ "[2;2f " +:+ ESC +:+ "[0m"].
Proof.
  intros this. split_and!; vm_compute; reflexivity.
Qed.

Section Erase.

Variable COLORS : gmap string JSValue.

Lemma reset_idempotent (cell : Cell.t) :
  Cell.reset COLORS (Cell.reset COLORS cell) = Cell.reset COLORS cell.
Proof. by rewrite !reset_unfold. Qed.

(** One visit of [erase]: the cell at index [y * width + x], if there is
    one, is reset, whether or not [x] is a column of the grid. *)
Lemma erase_cell_lookup (y x : Z) (st : Cursor.t) (p : nat) :
  Cursor._cells (Cursor.erase_cell COLORS y st x) !! p =
  (λ cell, if decide (Z.of_nat p = y * Cursor._width st + x)
           then Cell.reset COLORS cell else cell) <$> Cursor._cells st !! p.
Proof.
  unfold Cursor.erase_cell, Cursor.getPointerFromXY, Cursor.cell_at.
  cbn [default from_option id].
  set (pointer := y * Cursor._width st + x).
  destruct (decide (0 <= pointer)) as [Hpos|Hneg].
  - destruct (Cursor._cells st !! Z.to_nat pointer) as [cell|] eqn:Hcell.
    + cursor_simpl. destruct (decide (Z.of_nat p = pointer)) as [Hp|Hp].
      * replace (Z.to_nat pointer) with p in * by lia.
        rewrite list_lookup_insert_eq by (by eapply lookup_lt_Some).
        by rewrite Hcell.
      * rewrite list_lookup_insert_ne by lia.
        destruct (Cursor._cells st !! p); done.
    + destruct (decide (Z.of_nat p = pointer)) as [Hp|Hp].
      * replace (Z.to_nat pointer) with p in * by lia. by rewrite Hcell.
      * destruct (Cursor._cells st !! p); done.
  - destruct (decide (Z.of_nat p = pointer)) as [Hp|Hp]; [lia|].
    destruct (Cursor._cells st !! p); done.
Qed.

Lemma erase_cell_width (y x : Z) (st : Cursor.t) :
  Cursor._width (Cursor.erase_cell COLORS y st x) = Cursor._width st.
Proof.
  unfold Cursor.erase_cell.
  by destruct (Cursor.cell_at _ st).
Qed.

(** A loop whose rounds reset the cells selected by [hit]. *)
Lemma reset_loop {A} (f : Cursor.t → A → Cursor.t) (width : Z)
    (hit : A → nat → Prop) `{∀ a p, Decision (hit a p)} :
  (∀ st a, Cursor._width st = width → Cursor._width (f st a) = width) →
  (∀ st a p, Cursor._width st = width →
     Cursor._cells (f st a) !! p =
     (λ cell, if decide (hit a p) then Cell.reset COLORS cell else cell)
       <$> Cursor._cells st !! p) →
  ∀ (l : list A) (st : Cursor.t) (p : nat),
    Cursor._width st = width →
    Cursor._width (foldl f st l) = width ∧
    Cursor._cells (foldl f st l) !! p =
    (λ cell, if decide (Exists (λ a, hit a p) l) then Cell.reset COLORS cell else cell)
      <$> Cursor._cells st !! p.
Proof.
  intros Hwidth Hstep l. induction l as [|a l IH]; intros st p Hw.
  - split; [done|]. simpl.
    destruct (Cursor._cells st !! p) as [cell|]; [|done].
    reflexivity.
  - simpl. destruct (IH (f st a) p (Hwidth st a Hw)) as [Hw' Hc].
    split; [done|]. rewrite Hc, (Hstep st a p Hw).
    destruct (Cursor._cells st !! p) as [cell|]; [|done]. simpl. f_equal.
    destruct (decide (hit a p)) as [Ha|Ha].
    + rewrite (decide_True (P := Exists _ (a :: l))) by (by left).
      case_decide; [apply reset_idempotent|done].
    + destruct (decide (Exists (λ a, hit a p) l)) as [Hl|Hl].
      * by rewrite decide_True by (by right).
      * rewrite decide_False; [done|]. by intros [?|?]%Exists_cons.
Qed.

Lemma erase_row_lookup (x1 x2 y : Z) (st : Cursor.t) (p : nat) :
  Cursor._width (Cursor.erase_row COLORS x1 x2 st y) = Cursor._width st ∧
  Cursor._cells (Cursor.erase_row COLORS x1 x2 st y) !! p =
  (λ cell,
     if decide (Exists (λ x, Z.of_nat p = y * Cursor._width st + x)
                       (seqZ x1 (x2 - x1 + 1)))
     then Cell.reset COLORS cell else cell) <$> Cursor._cells st !! p.
Proof.
  unfold Cursor.erase_row.
  destruct (@reset_loop Z (Cursor.erase_cell COLORS y) (Cursor._width st)
              (λ x p, Z.of_nat p = y * Cursor._width st + x)
              (λ x p, decide (Z.of_nat p = y * Cursor._width st + x))) with
    (l := seqZ x1 (x2 - x1 + 1)) (st := st) (p := p) as [Hw Hc]; [| |done|].
  - intros st' x Hw. by rewrite erase_cell_width.
  - intros st' x p' Hw. by rewrite erase_cell_lookup, Hw.
  - split; [done|]. rewrite Hc.
    destruct (Cursor._cells st !! p) as [cell|]; [|done]. simpl.
    f_equal; by apply decide_ext.
Qed.

(** The cells after [erase], index by index. *)
Lemma erase_cells (x1 y1 x2 y2 : Z) (this : Cursor.t) (p : nat) :
  Cursor._cells (Cursor.erase COLORS x1 y1 x2 y2 this) !! p =
  (λ cell,
     if decide (rectangle_index (Cursor._width this) x1 y1 x2 y2 p)
     then Cell.reset COLORS cell else cell) <$> Cursor._cells this !! p.
Proof.
  unfold Cursor.erase, rectangle_index.
  destruct (@reset_loop Z (Cursor.erase_row COLORS x1 x2) (Cursor._width this)
              (λ y p, Exists (λ x, Z.of_nat p = y * Cursor._width this + x)
                             (seqZ x1 (x2 - x1 + 1)))
              (λ y p, decide (Exists (λ x, Z.of_nat p = y * Cursor._width this + x)
                                     (seqZ x1 (x2 - x1 + 1))))) with
    (l := seqZ y1 (y2 - y1 + 1)) (st := this) (p := p) as [Hw Hc]; [| |done|].
  - intros st y Hw. by rewrite (proj1 (erase_row_lookup x1 x2 y st 0%nat)).
  - intros st y p' Hw. rewrite (proj2 (erase_row_lookup x1 x2 y st p')), Hw.
    destruct (Cursor._cells st !! p') as [cell|]; [|done]. simpl.
    f_equal; by apply decide_ext.
  - rewrite Hc.
    destruct (Cursor._cells this !! p) as [cell|]; [|done]. simpl.
    f_equal; by apply decide_ext.
Qed.

Lemma rectangle_index_iff (width x1 y1 x2 y2 : Z) (p : nat) :
  rectangle_index width x1 y1 x2 y2 p ↔
  ∃ x y, x1 <= x <= x2 ∧ y1 <= y <= y2 ∧ Z.of_nat p = y * width + x.
Proof.
  unfold rectangle_index. rewrite Exists_exists. split.
  - intros (y & Hy%elem_of_seqZ & (x & Hx%elem_of_seqZ & Hp)%Exists_exists).
    exists x, y. lia.
  - intros (x & y & Hx & Hy & Hp). exists y. split; [apply elem_of_seqZ; lia|].
    apply Exists_exists. exists x. split; [apply elem_of_seqZ; lia|done].
Qed.

(** When the columns of the rectangle are columns of the grid, the cells
    that [erase] resets are those of the grid with coordinates in the
    rectangle, and no other. *)
Lemma erase_columns_on_grid (x1 y1 x2 y2 : Z) (this : Cursor.t) (p : nat) :
  0 <= x1 → x2 < Cursor._width this →
  Cursor._cells (Cursor.erase COLORS x1 y1 x2 y2 this) !! p =
  (λ cell,
     if decide (x1 <= Z.of_nat p `mod` Cursor._width this <= x2 ∧
                y1 <= Z.of_nat p / Cursor._width this <= y2)
     then Cell.reset COLORS cell else cell) <$> Cursor._cells this !! p.
Proof.
  intros Hx1 Hx2. rewrite erase_cells.
  destruct (Cursor._cells this !! p) as [cell|]; [|done]. simpl. f_equal.
  apply decide_ext. rewrite rectangle_index_iff. split.
  - intros (x & y & Hx & Hy & Hp).
    assert (Z.of_nat p / Cursor._width this = y) as ->.
    { symmetry. apply (Z.div_unique_pos _ _ y x); lia. }
    assert (Z.of_nat p `mod` Cursor._width this = x) as ->.
    { symmetry. apply (Z.mod_unique_pos _ _ y x); lia. }
    done.
  - intros [Hx Hy].
    exists (Z.of_nat p `mod` Cursor._width this), (Z.of_nat p / Cursor._width this).
    split; [done|]. split; [done|].
    rewrite Z.mul_comm. apply Z.div_mod. lia.
Qed.

End Erase.

(** ** Worked examples *)

(** The renderings checked by the unit test of [Cell.toString] that do not
    involve the colour black. *)
Example toString_blank :
  Cell.toString SPEC_COLORS blank_cell = ESC +:+ "[1;1f " +:+ ESC +:+ "[0m".
Proof. reflexivity. Qed.

Example toString_moved :
  Cell.toString SPEC_COLORS (Cell.setY (Some 10%Q) (Cell.setX (Some 20%Q) blank_cell)) =
  ESC +:+ "[11;21f " +:+ ESC +:+ "[0m".
Proof. reflexivity. Qed.

Example toString_styled :
  Cell.toString SPEC_COLORS
    (Cell.setDisplay (Some true) (Some true) (Some true) (Some true) (Some true)
       (Some true)
       (Cell.setForeground SPEC_COLORS (Some "white")
          (Cell.setY (Some 10%Q) (Cell.setX (Some 20%Q) blank_cell)))) =
  ESC +:+ "[11;21f" +:+ ESC +:+ "[38;5;15m" +:+ ESC +:+ "[1m" +:+ ESC +:+ "[2m" +:+
  ESC +:+ "[4m" +:+ ESC +:+ "[5m" +:+ ESC +:+ "[7m" +:+ ESC +:+ "[8m " +:+ ESC +:+ "[0m".
Proof. reflexivity. Qed.

(** [setX(5.9)] stores 5. *)
Example setX_floor : Cell.getX (Cell.setX (Some (59 # 10)) blank_cell) = 5.
Proof. reflexivity. Qed.

(** With a table of truthy codes, a name is kept exactly when the table
    has its upper-case form. *)
Lemma setBackground_truthy_table (COLORS : gmap string JSValue)
    (colorName : string) (cell : Cell.t) :
  codes_truthy COLORS →
  Cell.getBackground (Cell.setBackground COLORS (Some colorName) cell) =
  match COLORS !! toUpperCase colorName with
  | Some _ => toUpperCase colorName
  | None => "none"
  end.
Proof.
  intros Htable. rewrite setBackground_stored.
  destruct (COLORS !! toUpperCase colorName) as [code|] eqn:Hcode; [|done].
  by rewrite (Htable _ _ Hcode).
Qed.

(** A name that the table does not have is stored as [none]. *)
Lemma setBackground_unknown (COLORS : gmap string JSValue)
    (colorName : string) (cell : Cell.t) :
  COLORS !! toUpperCase colorName = None →
  Cell.getBackground (Cell.setBackground COLORS (Some colorName) cell) = "none" ∧
  Cell.getForeground (Cell.setForeground COLORS (Some colorName) cell) = "none".
Proof.
  intros Hnone. by rewrite setBackground_stored, setForeground_stored, Hnone.
Qed.

(** A cell that was written, flushed and then erased is blanked at the
    coordinates it was written at. *)
Example erase_after_write :
  let this := Cursor.flush SPEC_COLORS screen_Hi in
  Cursor._stream (Cursor.flush SPEC_COLORS (Cursor.erase SPEC_COLORS 1 1 1 1 this)) =
  Cursor._stream this ++ [ESC +:+ "[2;2f " +:+ ESC +:+ "[0m"].
Proof. vm_compute. reflexivity. Qed.

(** With the cursor just past the right edge, [eraseToStart] wipes the
    first line and also the first cell of the line below. *)
Example eraseToStart_past_edge :
  Cursor._x screen_abc_d = 3 ∧
  Cell.getChar <$> Cursor._cells screen_abc_d = ["a"; "b"; "c"; "d"; " "; " "] ∧
  Cell.getChar <$> Cursor._cells (Cursor.eraseToStart SPEC_COLORS screen_abc_d) =
    [" "; " "; " "; " "; " "; " "].
Proof. vm_compute. done. Qed.

(** * Further properties of the drawing operations *)

Lemma cursor_ext (a b : Cursor.t) :
  frame_of a = frame_of b → Cursor._cells a = Cursor._cells b → a = b.
Proof.
  destruct a, b. unfold frame_of. cbn. intros [= -> -> -> -> -> -> -> -> ->] ->.
  reflexivity.
Qed.

(** A loop whose rounds keep the frame keeps the frame. *)
Lemma frame_loop {A} (f : Cursor.t → A → Cursor.t) :
  (∀ st a, frame_of (f st a) = frame_of st) →
  ∀ (l : list A) (st : Cursor.t), frame_of (foldl f st l) = frame_of st.
Proof.
  intros Hf l. induction l as [|a l IH]; intros st; [done|].
  simpl. by rewrite IH, Hf.
Qed.

Section EraseMore.

Variable COLORS : gmap string JSValue.

Lemma erase_cell_frame (y x : Z) (st : Cursor.t) :
  frame_of (Cursor.erase_cell COLORS y st x) = frame_of st.
Proof. unfold Cursor.erase_cell. by destruct (Cursor.cell_at _ st). Qed.

Lemma erase_cell_length (y x : Z) (st : Cursor.t) :
  length (Cursor._cells (Cursor.erase_cell COLORS y st x)) = length (Cursor._cells st).
Proof.
  unfold Cursor.erase_cell. destruct (Cursor.cell_at _ st); [|done].
  cursor_simpl. by rewrite length_insert.
Qed.

Lemma length_loop {A} (f : Cursor.t → A → Cursor.t) :
  (∀ st a, length (Cursor._cells (f st a)) = length (Cursor._cells st)) →
  ∀ (l : list A) (st : Cursor.t),
    length (Cursor._cells (foldl f st l)) = length (Cursor._cells st).
Proof.
  intros Hf l. induction l as [|a l IH]; intros st; [done|].
  simpl. by rewrite IH, Hf.
Qed.

Lemma erase_keeps_frame (x1 y1 x2 y2 : Z) (this : Cursor.t) :
  frame_of (Cursor.erase COLORS x1 y1 x2 y2 this) = frame_of this.
Proof.
  unfold Cursor.erase. apply frame_loop. intros st y. apply frame_loop.
  intros st' x. apply erase_cell_frame.
Qed.

Lemma erase_keeps_length (x1 y1 x2 y2 : Z) (this : Cursor.t) :
  length (Cursor._cells (Cursor.erase COLORS x1 y1 x2 y2 this)) =
  length (Cursor._cells this).
Proof.
  unfold Cursor.erase. apply length_loop. intros st y. apply length_loop.
  intros st' x. apply erase_cell_length.
Qed.

(** X1.  [erase] touches nothing but the grid: it writes nothing to the
    stream, leaves the shadow, the cursor, the pen and the size alone, and
    the grid keeps its length. *)
Theorem erase_frame (x1 y1 x2 y2 : Z) (this : Cursor.t) :
  frame_of (Cursor.erase COLORS x1 y1 x2 y2 this) = frame_of this ∧
  length (Cursor._cells (Cursor.erase COLORS x1 y1 x2 y2 this)) =
    length (Cursor._cells this).
Proof.
  unfold Cursor.erase. split.
  - apply frame_loop. intros st y. apply frame_loop. intros st' x.
    unfold Cursor.erase_cell. by destruct (Cursor.cell_at _ st').
  - apply length_loop. intros st y. apply length_loop. intros st' x.
    unfold Cursor.erase_cell. destruct (Cursor.cell_at _ st'); [|done].
    cursor_simpl. by rewrite length_insert.
Qed.

(** X2.  The cells after [erase(x1, y1, x2, y2)]: the cell of index [p] is
    reset when [p = y * width + x] for some [x1 <= x <= x2] and
    [y1 <= y <= y2], whether or not [x] is a column of the grid, and is as
    before when there are no such [x] and [y]. *)
Theorem erase_by_index (x1 y1 x2 y2 : Z) (this : Cursor.t) (p : nat) :
  ((∃ x y, x1 <= x <= x2 ∧ y1 <= y <= y2 ∧
           Z.of_nat p = y * Cursor._width this + x) →
   Cursor._cells (Cursor.erase COLORS x1 y1 x2 y2 this) !! p =
   Cell.reset COLORS <$> Cursor._cells this !! p) ∧
  (¬ (∃ x y, x1 <= x <= x2 ∧ y1 <= y <= y2 ∧
             Z.of_nat p = y * Cursor._width this + x) →
   Cursor._cells (Cursor.erase COLORS x1 y1 x2 y2 this) !! p =
   Cursor._cells this !! p).
Proof.
  rewrite erase_cells, <- rectangle_index_iff.
  destruct (Cursor._cells this !! p) as [cell|]; [|done]. simpl.
  split; intros Hin.
  - by rewrite decide_True.
  - by rewrite decide_False.
Qed.

(** X3.  When the columns [x1 .. x2] are columns of the grid, [erase] resets
    the cells whose column lies in [x1 .. x2] and whose line lies in
    [y1 .. y2], and no other cell. *)
Theorem erase_on_grid (x1 y1 x2 y2 : Z) (this : Cursor.t) :
  0 <= x1 → x2 < Cursor._width this →
  Cursor._cells (Cursor.erase COLORS x1 y1 x2 y2 this) =
  imap (λ p cell,
          if decide (x1 <= column_of this p <= x2 ∧ y1 <= line_of this p <= y2)
          then Cell.reset COLORS cell else cell) (Cursor._cells this).
Proof.
  intros Hx1 Hx2. apply list_eq. intros p.
  rewrite list_lookup_imap, erase_columns_on_grid by done.
  by destruct (Cursor._cells this !! p).
Qed.

(** X4.  Erasing a rectangle twice is erasing it once. *)
Theorem erase_idempotent (x1 y1 x2 y2 : Z) (this : Cursor.t) :
  Cursor.erase COLORS x1 y1 x2 y2 (Cursor.erase COLORS x1 y1 x2 y2 this) =
  Cursor.erase COLORS x1 y1 x2 y2 this.
Proof.
  pose proof (erase_keeps_frame x1 y1 x2 y2 this) as Hf.
  apply cursor_ext.
  - by rewrite erase_keeps_frame.
  - apply list_eq. intros p. rewrite erase_cells.
    assert (Cursor._width (Cursor.erase COLORS x1 y1 x2 y2 this) =
            Cursor._width this) as -> by (by injection Hf).
    rewrite erase_cells.
    destruct (Cursor._cells this !! p) as [cell|]; [|done]. simpl. f_equal.
    case_decide; [apply reset_idempotent|done].
Qed.

End EraseMore.

Lemma erase_on_grid_witness :
  0 <= 1 ∧ 2 < Cursor._width screen_abc_d ∧
  Cell.getChar <$> Cursor._cells (Cursor.erase SPEC_COLORS 1 0 2 0 screen_abc_d) =
    ["a"; " "; " "; "d"; " "; " "].
Proof.
  assert (H1 : 0 <= 1) by lia.
  assert (H2 : 2 < Cursor._width screen_abc_d) by (vm_compute; reflexivity).
  split; [exact H1|]. split; [exact H2|].
  rewrite (erase_on_grid SPEC_COLORS 1 0 2 0 screen_abc_d H1 H2).
  vm_compute. reflexivity.
Defined.

Section EraseConveniences.

Variable COLORS : gmap string JSValue.

Lemma index_on_grid (this : Cursor.t) (p : nat) :
  well_formed this → 0 < Cursor._width this →
  (p < length (Cursor._cells this))%nat →
  0 <= column_of this p < Cursor._width this ∧
  0 <= line_of this p < Cursor._height this.
Proof.
  intros [Hc _] Hw Hp. unfold column_of, line_of. rewrite Hc in Hp.
  assert (Z.of_nat p < Cursor._width this * Cursor._height this) by lia.
  split; [by apply Z.mod_pos_bound|]. split.
  - apply Z.div_pos; lia.
  - apply Z.div_lt_upper_bound; lia.
Qed.

(** X5.  With the cursor on a column of the grid, [eraseToEnd] resets the
    cells of the cursor's line from the cursor's column on, and
    [eraseToStart] those up to the cursor's column; no other cell
    changes. *)
Theorem erase_to_end_and_start (this : Cursor.t) (p : nat) (cell : Cell.t) :
  well_formed this →
  0 <= Cursor._x this < Cursor._width this →
  Cursor._cells this !! p = Some cell →
  Cursor._cells (Cursor.eraseToEnd COLORS this) !! p =
    Some (if decide (line_of this p = Cursor._y this ∧
                     Cursor._x this <= column_of this p)
          then Cell.reset COLORS cell else cell) ∧
  Cursor._cells (Cursor.eraseToStart COLORS this) !! p =
    Some (if decide (line_of this p = Cursor._y this ∧
                     column_of this p <= Cursor._x this)
          then Cell.reset COLORS cell else cell).
Proof.
  intros Hwf Hx Hcell.
  destruct (index_on_grid this p Hwf) as [Hcol Hline];
    [lia|by eapply lookup_lt_Some|].
  unfold Cursor.eraseToEnd, Cursor.eraseToStart.
  rewrite !erase_columns_on_grid by lia. rewrite Hcell. simpl.
  fold (column_of this p) (line_of this p).
  split; f_equal; apply decide_ext; lia.
Qed.

(** X6.  On a grid with at least one column, [eraseLine] resets the cells
    of the cursor's line, [eraseToDown] those of the cursor's line and the
    lines below, [eraseToUp] those of the cursor's line and the lines above,
    [eraseScreen] every cell; no other cell changes. *)
Theorem erase_lines (this : Cursor.t) (p : nat) (cell : Cell.t) :
  well_formed this →
  0 < Cursor._width this →
  Cursor._cells this !! p = Some cell →
  Cursor._cells (Cursor.eraseLine COLORS this) !! p =
    Some (if decide (line_of this p = Cursor._y this)
          then Cell.reset COLORS cell else cell) ∧
  Cursor._cells (Cursor.eraseToDown COLORS this) !! p =
    Some (if decide (Cursor._y this <= line_of this p)
          then Cell.reset COLORS cell else cell) ∧
  Cursor._cells (Cursor.eraseToUp COLORS this) !! p =
    Some (if decide (line_of this p <= Cursor._y this)
          then Cell.reset COLORS cell else cell) ∧
  Cursor._cells (Cursor.eraseScreen COLORS this) !! p =
    Some (Cell.reset COLORS cell).
Proof.
  intros Hwf Hw Hcell.
  destruct (index_on_grid this p Hwf) as [Hcol Hline];
    [lia|by eapply lookup_lt_Some|].
  unfold Cursor.eraseLine, Cursor.eraseToDown, Cursor.eraseToUp,
    Cursor.eraseScreen.
  rewrite !erase_columns_on_grid by lia. rewrite Hcell. simpl.
  fold (column_of this p) (line_of this p).
  split_and!; f_equal.
  - apply decide_ext; lia.
  - apply decide_ext; lia.
  - apply decide_ext; lia.
  - rewrite decide_True; [done|lia].
Qed.

End EraseConveniences.

Lemma erase_to_end_and_start_witness :
  well_formed (Cursor.moveTo 1 0 screen_abc_d) ∧
  0 <= Cursor._x (Cursor.moveTo 1 0 screen_abc_d) <
    Cursor._width (Cursor.moveTo 1 0 screen_abc_d) ∧
  Cell.getChar <$>
    Cursor._cells (Cursor.eraseToEnd SPEC_COLORS (Cursor.moveTo 1 0 screen_abc_d))
      !! 2%nat = Some " " ∧
  Cell.getChar <$>
    Cursor._cells (Cursor.eraseToStart SPEC_COLORS (Cursor.moveTo 1 0 screen_abc_d))
      !! 2%nat = Some "c".
Proof.
  set (this := Cursor.moveTo 1 0 screen_abc_d).
  assert (Hwf : well_formed this) by (split; vm_compute; reflexivity).
  assert (Hx : 0 <= Cursor._x this < Cursor._width this)
    by (vm_compute; split; [discriminate|reflexivity]).
  assert (Hc : Cursor._cells this !! 2%nat =
               Some (Cell.mk "c" 2 0 "none" "none"
                       (Display.mk false false false false false false) false))
    by (vm_compute; reflexivity).
  split; [exact Hwf|]. split; [exact Hx|].
  destruct (erase_to_end_and_start SPEC_COLORS this 2 _ Hwf Hx Hc) as [He Hs].
  rewrite He, Hs. split; vm_compute; reflexivity.
Defined.

Lemma erase_lines_witness :
  well_formed screen_abc_d ∧ 0 < Cursor._width screen_abc_d ∧
  Cell.getChar <$>
    Cursor._cells (Cursor.eraseLine SPEC_COLORS screen_abc_d) !! 3%nat = Some "d" ∧
  Cell.getChar <$>
    Cursor._cells (Cursor.eraseToDown SPEC_COLORS screen_abc_d) !! 3%nat = Some " ".
Proof.
  assert (Hwf : well_formed screen_abc_d) by (split; vm_compute; reflexivity).
  assert (Hw : 0 < Cursor._width screen_abc_d) by (vm_compute; reflexivity).
  assert (Hc : Cursor._cells screen_abc_d !! 3%nat =
               Some (Cell.mk "d" 0 1 "none" "none"
                       (Display.mk false false false false false false) false))
    by (vm_compute; reflexivity).
  split; [exact Hwf|]. split; [exact Hw|].
  destruct (erase_lines SPEC_COLORS screen_abc_d 3 _ Hwf Hw Hc) as (Hl & Hd & _).
  rewrite Hl, Hd. split; vm_compute; reflexivity.
Defined.

(** ** Moving the cursor *)

Lemma Q_truncate_opp (q : Q) : Q_truncate (- q) = (- Q_truncate q)%Z.
Proof.
  unfold Q_truncate, Qceiling.
  destruct (Qlt_le_dec (- q) 0) as [Hn|Hn], (Qlt_le_dec q 0) as [Hq|Hq].
  - exfalso. apply Qopp_lt_compat in Hn. rewrite Qopp_involutive in Hn.
    exact (Qlt_irrefl 0 (Qlt_trans 0 q 0 Hn Hq)).
  - rewrite (Qfloor_comp (- - q) q) by apply Qopp_involutive. done.
  - lia.
  - assert (Hz : (q == 0)%Q).
    { apply Qle_antisym; [|done]. apply Qopp_le_compat in Hn.
      by rewrite Qopp_involutive in Hn. }
    rewrite (Qfloor_comp (- q) 0), (Qfloor_comp q 0); [done|done|].
    by rewrite Hz.
Qed.

Lemma Q_truncate_Z (a : Z) : Q_truncate (inject_Z a) = a.
Proof.
  unfold Q_truncate, Qceiling. destruct (Qlt_le_dec (inject_Z a) 0).
  - change (- inject_Z a)%Q with (inject_Z (- a)). rewrite Qfloor_Z. lia.
  - apply Qfloor_Z.
Qed.

Lemma moveBy_formula (dx dy : Q) (this : Cursor.t) :
  Cursor.moveBy dx dy this =
  Cursor.set_y (Cursor._y this + Q_truncate dy)
    (Cursor.set_x (Cursor._x this + Q_truncate dx) this).
Proof.
  assert (Hzero : ∀ q, (0 <= q)%Q → ¬ (0 < q)%Q → Qfloor q = 0).
  { intros q H1 H2. rewrite (Qfloor_comp q 0); [done|].
    apply Qle_antisym; [by apply Qnot_lt_le|done]. }
  destruct this. unfold Cursor.moveBy, Q_truncate, Qceiling, Cursor.left,
    Cursor.right, Cursor.up, Cursor.down, Math_floor.
  cbn [default from_option id].
  destruct (Qlt_le_dec dx 0) as [Hx|Hx], (Qlt_le_dec 0 dx) as [Hx'|Hx'];
    destruct (Qlt_le_dec dy 0) as [Hy|Hy], (Qlt_le_dec 0 dy) as [Hy'|Hy'];
    try (exfalso; exact (Qlt_irrefl _ (Qlt_trans _ _ _ Hx Hx')));
    try (exfalso; exact (Qlt_irrefl _ (Qlt_trans _ _ _ Hy Hy')));
    cursor_simpl;
    rewrite ?(Hzero dx Hx) by (by apply Qle_not_lt);
    rewrite ?(Hzero dy Hy) by (by apply Qle_not_lt);
    f_equal; lia.
Qed.

(** X7.  [moveBy(dx, dy)] shifts the cursor by [dx] and [dy] rounded
    towards zero, and nothing else changes; an integer offset is added as it
    is, and moving by the opposite offsets leads back. *)
Theorem moveBy_truncates (dx dy : Q) (this : Cursor.t) :
  Cursor.moveBy dx dy this =
    repen (Cursor._x this + Q_truncate dx) (Cursor._y this + Q_truncate dy)
      (Cursor._background this) (Cursor._foreground this)
      (Cursor._display this) this ∧
  (∀ a b : Z,
     Cursor.moveBy (inject_Z a) (inject_Z b) this =
     repen (Cursor._x this + a) (Cursor._y this + b)
       (Cursor._background this) (Cursor._foreground this)
       (Cursor._display this) this) ∧
  Cursor.moveBy (- dx) (- dy) (Cursor.moveBy dx dy this) = this.
Proof.
  split_and!.
  - rewrite moveBy_formula. by destruct this.
  - intros a b. rewrite moveBy_formula, !Q_truncate_Z. by destruct this.
  - rewrite !moveBy_formula. destruct this. cursor_simpl.
    rewrite !Q_truncate_opp. f_equal; lia.
Qed.

(** X8.  The relative moves undo each other: [down(n)] after [up(n)],
    [up(n)] after [down(n)], [right(n)] after [left(n)] and [left(n)] after
    [right(n)] give the cursor back, whatever [n]; [moveTo] forgets where the
    cursor was. *)
Theorem relative_moves_cancel (n : option Q) (this : Cursor.t) :
  Cursor.down n (Cursor.up n this) = this ∧
  Cursor.up n (Cursor.down n this) = this ∧
  Cursor.right n (Cursor.left n this) = this ∧
  Cursor.left n (Cursor.right n this) = this ∧
  ∀ x y dx dy : Q,
    Cursor.moveTo x y (Cursor.moveBy dx dy this) = Cursor.moveTo x y this.
Proof.
  split_and!; try (destruct this; unfold Cursor.down, Cursor.up, Cursor.left,
    Cursor.right; cursor_simpl; f_equal; lia).
  intros x y dx dy. rewrite moveBy_formula. by destruct this.
Qed.

(** ** Operations that only touch the cursor and the pen *)

Section PenAndFlush.

Variable COLORS : gmap string JSValue.

Lemma flush_cell_repen (x y : Z) (bg fg : string) (d : Display.t)
    (st : Cursor.t) (i : nat) :
  Cursor.flush_cell COLORS (repen x y bg fg d st) i =
  repen x y bg fg d (Cursor.flush_cell COLORS st i).
Proof.
  unfold Cursor.flush_cell, repen. cbn [Cursor._cells].
  destruct (Cursor._cells st !! i) as [cell|]; [|done].
  destruct (Cell.isModified cell); [|done].
  cbv zeta. cursor_simpl. by case_decide.
Qed.

Lemma flush_repen (x y : Z) (bg fg : string) (d : Display.t) (this : Cursor.t) :
  Cursor.flush COLORS (repen x y bg fg d this) =
  repen x y bg fg d (Cursor.flush COLORS this).
Proof.
  unfold Cursor.flush. change (Cursor._cells (repen x y bg fg d this))
    with (Cursor._cells this).
  generalize (seq 0 (length (Cursor._cells this))). intros l. revert this.
  induction l as [|i l IH]; intros this; [done|].
  simpl. by rewrite flush_cell_repen, IH.
Qed.

(** An operation that puts the cursor and the pen at values computed from
    the cursor and the pen commutes with [flush]. *)
Lemma flush_commutes (op : Cursor.t → Cursor.t)
    (fx fy : Z → Z → Z) (fb ff : string → string) (fd : Display.t → Display.t) :
  (∀ st, op st =
         repen (fx (Cursor._x st) (Cursor._y st)) (fy (Cursor._x st) (Cursor._y st))
           (fb (Cursor._background st)) (ff (Cursor._foreground st))
           (fd (Cursor._display st)) st) →
  ∀ this, Cursor.flush COLORS (op this) = op (Cursor.flush COLORS this).
Proof.
  intros Hop this. rewrite !Hop, flush_repen.
  destruct (flush_frame COLORS this) as (_ & _ & -> & -> & -> & -> & ->).
  done.
Qed.

(** X9.  Moving the cursor and changing the pen write nothing and leave
    pending changes pending: doing any of these before a flush or after it
    gives the same screen and the same output. *)
Theorem flush_commutes_with_pen (this : Cursor.t) :
  (∀ x y, Cursor.flush COLORS (Cursor.moveTo x y this) =
          Cursor.moveTo x y (Cursor.flush COLORS this)) ∧
  (∀ dx dy, Cursor.flush COLORS (Cursor.moveBy dx dy this) =
            Cursor.moveBy dx dy (Cursor.flush COLORS this)) ∧
  (∀ n, Cursor.flush COLORS (Cursor.up n this) = Cursor.up n (Cursor.flush COLORS this)) ∧
  (∀ n, Cursor.flush COLORS (Cursor.down n this) = Cursor.down n (Cursor.flush COLORS this)) ∧
  (∀ n, Cursor.flush COLORS (Cursor.left n this) = Cursor.left n (Cursor.flush COLORS this)) ∧
  (∀ n, Cursor.flush COLORS (Cursor.right n this) = Cursor.right n (Cursor.flush COLORS this)) ∧
  (∀ c, Cursor.flush COLORS (Cursor.foreground c this) =
        Cursor.foreground c (Cursor.flush COLORS this)) ∧
  (∀ c, Cursor.flush COLORS (Cursor.background c this) =
        Cursor.background c (Cursor.flush COLORS this)) ∧
  (∀ b, Cursor.flush COLORS (Cursor.bold b this) = Cursor.bold b (Cursor.flush COLORS this)) ∧
  (∀ b, Cursor.flush COLORS (Cursor.dim b this) = Cursor.dim b (Cursor.flush COLORS this)) ∧
  (∀ b, Cursor.flush COLORS (Cursor.underlined b this) =
        Cursor.underlined b (Cursor.flush COLORS this)) ∧
  (∀ b, Cursor.flush COLORS (Cursor.blink b this) = Cursor.blink b (Cursor.flush COLORS this)) ∧
  (∀ b, Cursor.flush COLORS (Cursor.reverse b this) =
        Cursor.reverse b (Cursor.flush COLORS this)) ∧
  (∀ b, Cursor.flush COLORS (Cursor.hidden b this) =
        Cursor.hidden b (Cursor.flush COLORS this)).
Proof.
  split_and!; intros.
  - apply (flush_commutes _ (λ _ _, Math_floor x) (λ _ _, Math_floor y) id id id).
    by intros [].
  - apply (flush_commutes _ (λ a _, a + Q_truncate dx) (λ _ b, b + Q_truncate dy)
             id id id).
    intros st. rewrite moveBy_formula. by destruct st.
  - apply (flush_commutes _ (λ a _, a) (λ _ b, b - Math_floor (default 1%Q n))
             id id id). by intros [].
  - apply (flush_commutes _ (λ a _, a) (λ _ b, b + Math_floor (default 1%Q n))
             id id id). by intros [].
  - apply (flush_commutes _ (λ a _, a - Math_floor (default 1%Q n)) (λ _ b, b)
             id id id). by intros [].
  - apply (flush_commutes _ (λ a _, a + Math_floor (default 1%Q n)) (λ _ b, b)
             id id id). by intros [].
  - apply (flush_commutes _ (λ a _, a) (λ _ b, b) id (λ _, default "none" c) id).
    by intros [].
  - apply (flush_commutes _ (λ a _, a) (λ _ b, b) (λ _, default "none" c) id id).
    by intros [].
  - apply (flush_commutes _ (λ a _, a) (λ _ b, b) id id
             (λ d, Display.mk (default true b) (Display.dim d) (Display.underlined d)
                     (Display.blink d) (Display.reverse d) (Display.hidden d))).
    by intros [].
  - apply (flush_commutes _ (λ a _, a) (λ _ b, b) id id
             (λ d, Display.mk (Display.bold d) (default true b) (Display.underlined d)
                     (Display.blink d) (Display.reverse d) (Display.hidden d))).
    by intros [].
  - apply (flush_commutes _ (λ a _, a) (λ _ b, b) id id
             (λ d, Display.mk (Display.bold d) (Display.dim d) (default true b)
                     (Display.blink d) (Display.reverse d) (Display.hidden d))).
    by intros [].
  - apply (flush_commutes _ (λ a _, a) (λ _ b, b) id id
             (λ d, Display.mk (Display.bold d) (Display.dim d) (Display.underlined d)
                     (default true b) (Display.reverse d) (Display.hidden d))).
    by intros [].
  - apply (flush_commutes _ (λ a _, a) (λ _ b, b) id id
             (λ d, Display.mk (Display.bold d) (Display.dim d) (Display.underlined d)
                     (Display.blink d) (default true b) (Display.hidden d))).
    by intros [].
  - apply (flush_commutes _ (λ a _, a) (λ _ b, b) id id
             (λ d, Display.mk (Display.bold d) (Display.dim d) (Display.underlined d)
                     (Display.blink d) (Display.reverse d) (default true b))).
    by intros [].
Qed.

(** X10.  The five immediate operations send their control sequence at
    once and do not go through the grid: cells and shadow are untouched, and
    a flush that follows sends the pending cells after the sequence. *)
Theorem immediate_operations (this : Cursor.t) :
  let pending :=
    omap (emitted COLORS this) (seq 0 (length (Cursor._cells this))) in
  Cursor._stream (Cursor.flush COLORS (Cursor.saveScreen this)) =
    Cursor._stream this ++ [ESC +:+ "[?47h"] ++ pending ∧
  Cursor._stream (Cursor.flush COLORS (Cursor.restoreScreen this)) =
    Cursor._stream this ++ [ESC +:+ "[?47l"] ++ pending ∧
  Cursor._stream (Cursor.flush COLORS (Cursor.hideCursor this)) =
    Cursor._stream this ++ [ESC +:+ "[?25l"] ++ pending ∧
  Cursor._stream (Cursor.flush COLORS (Cursor.showCursor this)) =
    Cursor._stream this ++ [ESC +:+ "[?25h"] ++ pending ∧
  Cursor._stream (Cursor.flush COLORS (Cursor.reset this)) =
    Cursor._stream this ++ [ESC +:+ "c"] ++ pending ∧
  Forall (λ op : Cursor.t → Cursor.t,
            Cursor._cells (op this) = Cursor._cells this ∧
            Cursor._lastFrame (op this) = Cursor._lastFrame this)
    [Cursor.saveScreen; Cursor.restoreScreen; Cursor.hideCursor;
     Cursor.showCursor; Cursor.reset].
Proof.
  intros pending.
  assert (Hw : ∀ code,
    Cursor._stream (Cursor.flush COLORS (Cursor.stream_write code this)) =
    Cursor._stream this ++ [code] ++ pending).
  { intros code. rewrite flush_stream. cursor_simpl. by rewrite <- app_assoc. }
  split_and!; try apply Hw. repeat constructor.
Qed.

End PenAndFlush.

(** ** More on writing *)

Section WriteMore.

Variable COLORS : gmap string JSValue.

Lemma chars_append (a b : string) :
  Cursor.chars (a +:+ b) = Cursor.chars a ++ Cursor.chars b.
Proof.
  unfold Cursor.chars. induction a as [|c a IH]; [done|].
  simpl. f_equal. exact IH.
Qed.

(** X11.  Writing a text in two pieces is writing it in one: [write(a + b)]
    is [write(a)] followed by [write(b)], an error of the first being the
    error of the whole; writing the empty string changes nothing. *)
Theorem write_append (a b : string) (this : Cursor.t) :
  Cursor.write COLORS (a +:+ b) this =
    Cursor.write COLORS a this ≫= Cursor.write COLORS b ∧
  Cursor.write COLORS "" this = Some this.
Proof.
  split; [|done]. unfold Cursor.write. rewrite chars_append, foldl_app.
  destruct (foldl _ (Some this) (Cursor.chars a)) as [st|]; [done|].
  apply write_loop_error.
Qed.

Lemma write_char_off_grid (char : string) (this : Cursor.t) :
  ¬ on_grid this (Cursor._x this) (Cursor._y this) →
  Cursor.write_char COLORS char this = Some (Cursor.set_x (Cursor._x this + 1) this).
Proof.
  intros Hoff. unfold Cursor.write_char, on_grid in *. cbv zeta.
  by rewrite decide_False by lia.
Qed.

Lemma write_off_grid_loop (data : string) (this : Cursor.t) :
  Cursor._width this <= Cursor._x this ∨
    ¬ 0 <= Cursor._y this < Cursor._height this →
  Cursor.write COLORS data this =
  Some (Cursor.set_x (Cursor._x this + Z.of_nat (String.length data)) this).
Proof.
  revert this. induction data as [|c data IH]; intros this Hoff.
  - simpl. unfold Cursor.write. simpl. f_equal. destruct this. cursor_simpl.
    f_equal. lia.
  - rewrite write_cons, write_char_off_grid by (unfold on_grid; lia).
    simpl. rewrite IH by (cursor_simpl; lia).
    f_equal. destruct this. cursor_simpl. f_equal. lia.
Qed.

(** X12.  With the cursor past the right edge, or on a line that is not a
    line of the grid, [write(data)] is [right(data.length)]: the cursor
    advances and nothing else changes, on any state and without error. *)
Theorem write_off_grid (data : string) (this : Cursor.t) :
  Cursor._width this <= Cursor._x this ∨
    ¬ 0 <= Cursor._y this < Cursor._height this →
  Cursor.write COLORS data this =
  Some (Cursor.right (Some (inject_Z (Z.of_nat (String.length data)))) this).
Proof.
  intros Hoff. rewrite write_off_grid_loop by done.
  unfold Cursor.right, Math_floor. cbn [default from_option id].
  by rewrite Qfloor_Z.
Qed.

Lemma flush_shadow_dirty (this : Cursor.t) (i : nat) (cell : Cell.t) :
  Cursor._cells this !! i = Some cell →
  Cell.isModified cell = true →
  array_get (Cursor._lastFrame (Cursor.flush COLORS this)) i =
    Some (Cell.toString COLORS cell).
Proof.
  intros Hcell Hmod.
  rewrite flush_lastFrame. unfold emitted. rewrite Hcell. simpl.
  rewrite Hmod. case_decide as Hd; [done|].
  by destruct (decide (Some (Cell.toString COLORS (Cell.setModified (Some false) cell)) =
                       array_get (Cursor._lastFrame this) i)) as [<-|].
Qed.

(** X13.  After a flush the shadow holds the rendering of every cell that
    was dirty, and the cell is clean. *)
Theorem flush_syncs_shadow (this : Cursor.t) (i : nat) (cell : Cell.t) :
  Cursor._cells this !! i = Some cell →
  Cell.isModified cell = true →
  array_get (Cursor._lastFrame (Cursor.flush COLORS this)) i =
    Some (Cell.toString COLORS cell) ∧
  Cursor._cells (Cursor.flush COLORS this) !! i =
    Some (Cell.setModified (Some false) cell).
Proof.
  intros Hcell Hmod. split; [by apply flush_shadow_dirty|].
  rewrite flush_cells, list_lookup_fmap, Hcell. simpl.
  unfold flushed_cell. by rewrite Hmod.
Qed.

End WriteMore.

Lemma write_off_grid_witness :
  (Cursor._width screen_abc_d <= Cursor._x screen_abc_d ∨
   ¬ 0 <= Cursor._y screen_abc_d < Cursor._height screen_abc_d) ∧
  Cursor.write SPEC_COLORS "xyz" screen_abc_d =
    Some (Cursor.right (Some 3%Q) screen_abc_d).
Proof.
  assert (H : Cursor._width screen_abc_d <= Cursor._x screen_abc_d ∨
              ¬ 0 <= Cursor._y screen_abc_d < Cursor._height screen_abc_d)
    by (left; vm_compute; discriminate).
  split; [exact H|]. exact (write_off_grid SPEC_COLORS "xyz" screen_abc_d H).
Defined.

Lemma flush_syncs_shadow_witness :
  Cursor._cells screen_Hi !! 4%nat =
    Some (Cell.mk "H" 1 1 "WHITE" "YELLOW"
            (Display.mk false false false false false false) true) ∧
  array_get (Cursor._lastFrame (Cursor.flush SPEC_COLORS screen_Hi)) 4 =
    Some (ESC +:+ "[2;2f" +:+ ESC +:+ "[48;5;15m" +:+ ESC +:+ "[38;5;11mH" +:+
          ESC +:+ "[0m").
Proof.
  assert (Hc : Cursor._cells screen_Hi !! 4%nat =
               Some (Cell.mk "H" 1 1 "WHITE" "YELLOW"
                       (Display.mk false false false false false false) true))
    by (vm_compute; reflexivity).
  split; [exact Hc|].
  exact (proj1 (flush_syncs_shadow SPEC_COLORS screen_Hi 4 _ Hc eq_refl)).
Defined.

(** ** More on coordinates *)

(** X14.  On a grid with at least one column, the coordinates of an index
    give the index back; the column is a column of the grid, and the line is
    a line of the grid when the index is below [width * height]. *)
Theorem index_round_trip (this : Cursor.t) (index : Z) :
  0 < Cursor._width this →
  Cursor.getPointerFromXY (Some (Cursor.getXYFromPointer index this).1)
    (Some (Cursor.getXYFromPointer index this).2) this = index ∧
  0 <= (Cursor.getXYFromPointer index this).1 < Cursor._width this ∧
  (0 <= index < Cursor._width this * Cursor._height this →
   0 <= (Cursor.getXYFromPointer index this).2 < Cursor._height this).
Proof.
  intros Hw. unfold Cursor.getPointerFromXY, Cursor.getXYFromPointer. simpl.
  split; [lia|].
  rewrite <- Zmod_eq_full by lia. split; [by apply Z.mod_pos_bound|].
  intros Hi. split; [apply Z.div_pos; lia|].
  apply Z.div_lt_upper_bound; lia.
Qed.

Lemma index_round_trip_witness :
  0 < Cursor._width screen_3x2 ∧
  Cursor.getXYFromPointer 5 screen_3x2 = (2, 1) ∧
  Cursor.getPointerFromXY (Some 2) (Some 1) screen_3x2 = 5.
Proof.
  assert (Hw : 0 < Cursor._width screen_3x2) by (simpl; lia).
  split; [exact Hw|]. split; [reflexivity|].
  exact (proj1 (index_round_trip screen_3x2 5 Hw)).
Defined.

(** ** The invariant of the screen *)

Section Invariant.

Variable COLORS : gmap string JSValue.

Lemma well_formed_same_sizes (this this' : Cursor.t) :
  Cursor._width this' = Cursor._width this →
  Cursor._height this' = Cursor._height this →
  length (Cursor._cells this') = length (Cursor._cells this) →
  length (Cursor._lastFrame this') = length (Cursor._lastFrame this) →
  well_formed this → well_formed this'.
Proof. unfold well_formed. intros -> -> -> ->. done. Qed.

Lemma erase_well_formed (x1 y1 x2 y2 : Z) (this : Cursor.t) :
  well_formed this → well_formed (Cursor.erase COLORS x1 y1 x2 y2 this).
Proof.
  pose proof (erase_keeps_frame COLORS x1 y1 x2 y2 this) as Hf.
  injection Hf as _ Hw Hh _ _ _ _ _ Hl.
  apply well_formed_same_sizes; try done.
  - apply erase_keeps_length.
  - by rewrite Hl.
Qed.

(** X15.  A new screen has [width * height] cells and as many shadow
    entries, and every operation keeps it so: flushing, erasing, writing
    (which then raises no error), moving the cursor, changing the pen and
    the immediate operations. *)
Theorem well_formed_invariant :
  (∀ width height, well_formed (Cursor.constructor COLORS width height)) ∧
  ∀ this, well_formed this →
    well_formed (Cursor.flush COLORS this) ∧
    (∀ x1 y1 x2 y2, well_formed (Cursor.erase COLORS x1 y1 x2 y2 this)) ∧
    (∀ data, ∃ this', Cursor.write COLORS data this = Some this' ∧ well_formed this') ∧
    (∀ x y, well_formed (Cursor.moveTo x y this)) ∧
    (∀ dx dy, well_formed (Cursor.moveBy dx dy this)) ∧
    (∀ n, Forall (λ op : option Q → Cursor.t → Cursor.t, well_formed (op n this))
            [Cursor.up; Cursor.down; Cursor.left; Cursor.right]) ∧
    (∀ c, Forall (λ op : option string → Cursor.t → Cursor.t, well_formed (op c this))
            [Cursor.foreground; Cursor.background]) ∧
    (∀ b, Forall (λ op : option bool → Cursor.t → Cursor.t, well_formed (op b this))
            [Cursor.bold; Cursor.dim; Cursor.underlined; Cursor.blink;
             Cursor.reverse; Cursor.hidden]) ∧
    Forall (λ op : Cursor.t → Cursor.t, well_formed (op this))
      [Cursor.eraseToEnd COLORS; Cursor.eraseToStart COLORS;
       Cursor.eraseToDown COLORS; Cursor.eraseToUp COLORS;
       Cursor.eraseLine COLORS; Cursor.eraseScreen COLORS;
       Cursor.saveScreen; Cursor.restoreScreen; Cursor.hideCursor;
       Cursor.showCursor; Cursor.reset].
Proof.
  split; [apply constructor_well_formed|]. intros this Hwf.
  split_and!.
  - by apply flush_well_formed.
  - intros. by apply erase_well_formed.
  - intros data.
    destruct (write_cells COLORS data this Hwf) as (this' & Hw & Hwf' & _).
    by exists this'.
  - intros. by destruct this.
  - intros. rewrite moveBy_formula. by destruct this.
  - intros. repeat first [apply Forall_nil_2 | apply Forall_cons_2];
      by destruct this.
  - intros. repeat first [apply Forall_nil_2 | apply Forall_cons_2];
      by destruct this.
  - intros. repeat first [apply Forall_nil_2 | apply Forall_cons_2];
      by destruct this.
  - repeat first [apply Forall_nil_2 | apply Forall_cons_2];
      try (by apply erase_well_formed); by destruct this.
Qed.

End Invariant.

Lemma well_formed_invariant_witness :
  well_formed screen_Hi ∧ well_formed (Cursor.flush SPEC_COLORS screen_Hi).
Proof.
  assert (Hwf : well_formed screen_Hi) by (split; reflexivity).
  split; [exact Hwf|].
  exact (proj1 (proj2 (well_formed_invariant SPEC_COLORS) screen_Hi Hwf)).
Defined.

(** ** The first flush *)

Lemma omap_ext_Forall {A B} (f g : A → option B) (l : list A) :
  Forall (λ a, f a = g a) l → omap f l = omap g l.
Proof.
  induction 1 as [|a l Ha _ IH]; [done|]. simpl. rewrite Ha.
  destruct (g a); [f_equal|]; exact IH.
Qed.

Lemma omap_lookup_seq {A B} (g : A → option B) (l : list A) :
  omap (λ i, l !! i ≫= g) (seq 0 (length l)) = omap g l.
Proof.
  induction l as [|a l IH] using rev_ind; [done|].
  rewrite length_app. simpl length. rewrite Nat.add_1_r, seq_S, !omap_app.
  f_equal.
  - rewrite <- IH. apply omap_ext_Forall, Forall_seq. intros i Hi.
    by rewrite lookup_app_l by lia.
  - simpl. rewrite lookup_app_r by lia.
    by replace (length l - length l)%nat with 0%nat by lia.
Qed.

Lemma omap_filter {A B} (P : A → bool) (h : A → B) (l : list A) :
  omap (λ a, if P a then Some (h a) else None) l =
  h <$> filter (λ a, P a = true) l.
Proof.
  induction l as [|a l IH]; [done|]. simpl.
  destruct (P a) eqn:Ha.
  - rewrite filter_cons_True by done. simpl. f_equal. exact IH.
  - rewrite filter_cons_False by (by rewrite Ha). exact IH.
Qed.

Lemma filter_Forall {A} (P : A → Prop) `{∀ a, Decision (P a)} (l : list A) :
  Forall P l → filter P l = l.
Proof.
  induction 1 as [|a l Ha _ IH]; [done|].
  rewrite filter_cons_True by done. by rewrite IH.
Qed.

Section FirstFlush.

Variable COLORS : gmap string JSValue.

Lemma toString_not_empty (cell : Cell.t) : Cell.toString COLORS cell ≠ "".
Proof. unfold Cell.toString, encodeToVT100, ESC. simpl. discriminate. Qed.

Lemma toString_setModified (b : option bool) (cell : Cell.t) :
  Cell.toString COLORS (Cell.setModified b cell) = Cell.toString COLORS cell.
Proof. reflexivity. Qed.

Lemma first_flush_stream (this : Cursor.t) :
  Cursor._lastFrame this = replicate (length (Cursor._cells this)) (Some "") →
  Cursor._stream (Cursor.flush COLORS this) =
  Cursor._stream this ++
  (Cell.toString COLORS <$>
     filter (λ cell, Cell.isModified cell = true) (Cursor._cells this)).
Proof.
  intros Hshadow. rewrite flush_stream. f_equal.
  rewrite <- (omap_filter Cell.isModified).
  rewrite <- (omap_lookup_seq
                (λ cell, if Cell.isModified cell
                         then Some (Cell.toString COLORS cell) else None)
                (Cursor._cells this)).
  apply omap_ext_Forall, Forall_seq. intros i Hi.
  unfold emitted. destruct (Cursor._cells this !! i) as [cell|]; [|done].
  simpl. destruct (Cell.isModified cell); [|done].
  rewrite toString_setModified.
  assert (array_get (Cursor._lastFrame this) i = Some "") as ->.
  { unfold array_get. by rewrite Hshadow, lookup_replicate_2 by lia. }
  rewrite decide_True; [done|].
  intros [= H]; by apply toString_not_empty in H.
Qed.

(** X16.  On a screen that was never flushed (every shadow entry is the
    empty string) a flush sends the rendering of every dirty cell, in index
    order, and nothing else; afterwards the shadow holds the rendering of
    the cells that were dirty and the empty string for the others. *)
Theorem first_flush (this : Cursor.t) :
  Cursor._lastFrame this = replicate (length (Cursor._cells this)) (Some "") →
  Cursor._stream (Cursor.flush COLORS this) =
    Cursor._stream this ++
    (Cell.toString COLORS <$>
       filter (λ cell, Cell.isModified cell = true) (Cursor._cells this)) ∧
  ∀ i cell,
    Cursor._cells this !! i = Some cell →
    array_get (Cursor._lastFrame (Cursor.flush COLORS this)) i =
    Some (if Cell.isModified cell then Cell.toString COLORS cell else "").
Proof.
  intros Hshadow. split; [by apply first_flush_stream|].
  intros i cell Hcell.
  assert (Hold : array_get (Cursor._lastFrame this) i = Some "").
  { unfold array_get. rewrite Hshadow, lookup_replicate_2; [done|].
    by eapply lookup_lt_Some. }
  rewrite flush_lastFrame. unfold emitted. rewrite Hcell. simpl.
  destruct (Cell.isModified cell); [|done].
  rewrite toString_setModified, Hold.
  rewrite decide_True; [done|].
  intros [= H]; by apply toString_not_empty in H.
Qed.

Lemma eraseScreen_all (this : Cursor.t) :
  well_formed this → 0 <= Cursor._width this →
  Cursor._cells (Cursor.eraseScreen COLORS this) =
  Cell.reset COLORS <$> Cursor._cells this.
Proof.
  intros Hwf Hw. apply list_eq. intros p. rewrite list_lookup_fmap.
  unfold Cursor.eraseScreen.
  destruct (Cursor._cells this !! p) as [cell|] eqn:Hcell.
  - assert (Hp : (p < length (Cursor._cells this))%nat) by (by eapply lookup_lt_Some).
    assert (0 < Cursor._width this).
    { destruct Hwf as [Hc _]. rewrite Hc in Hp.
      destruct (decide (Cursor._width this = 0)) as [Hz|Hz]; [|lia].
      rewrite Hz in Hp. simpl in Hp. lia. }
    destruct (index_on_grid this p Hwf) as [Hcol Hline]; [done..|].
    unfold column_of, line_of in *.
    rewrite erase_columns_on_grid, Hcell by lia. simpl.
    by rewrite decide_True by lia.
  - apply lookup_ge_None_2. rewrite erase_keeps_length.
    by apply lookup_ge_None_1.
Qed.

(** X17.  The cells of a new screen all carry the coordinates (0, 0),
    which only [write] replaces.  So erasing a new screen and flushing sends
    one blanking sequence for each cell of the grid, every one of them
    addressed to row 1, column 1.  ([NONE] is not a colour of the table.) *)
Theorem erase_new_screen (width height : Z) :
  0 <= width →
  truthy (COLORS !! "NONE") = false →
  Forall (λ cell, (Cell.getX cell, Cell.getY cell) = (0, 0))
    (Cursor._cells (Cursor.constructor COLORS width height)) ∧
  Cursor._stream
    (Cursor.flush COLORS
       (Cursor.eraseScreen COLORS (Cursor.constructor COLORS width height))) =
  replicate (Z.to_nat (width * height)) (ESC +:+ "[1;1f " +:+ ESC +:+ "[0m").
Proof.
  intros Hw Hnone. split.
  - simpl. by apply Forall_replicate.
  - set (new := Cursor.constructor COLORS width height).
    pose proof (erase_keeps_frame COLORS 0 0 (Cursor._width new - 1)
                  (Cursor._height new - 1) new) as Hf.
    fold (Cursor.eraseScreen COLORS new) in Hf.
    injection Hf as Hs _ _ _ _ _ _ _ Hl.
    assert (Hcells : Cursor._cells (Cursor.eraseScreen COLORS new) =
                     replicate (Z.to_nat (width * height))
                       (Cell.reset COLORS (Cell.constructor COLORS None Cell.no_options))).
    { rewrite eraseScreen_all by (apply constructor_well_formed || done).
      apply fmap_replicate. }
    rewrite first_flush_stream.
    + rewrite Hs, Hcells. simpl app.
      rewrite filter_Forall by (by apply Forall_replicate).
      rewrite fmap_replicate. f_equal.
      rewrite reset_unfold, Hnone. reflexivity.
    + rewrite Hl, Hcells, length_replicate. reflexivity.
Qed.

End FirstFlush.

Lemma first_flush_witness :
  Cursor._lastFrame screen_Hi =
    replicate (length (Cursor._cells screen_Hi)) (Some "") ∧
  length (Cursor._stream (Cursor.flush SPEC_COLORS screen_Hi)) = 2%nat.
Proof.
  assert (H : Cursor._lastFrame screen_Hi =
              replicate (length (Cursor._cells screen_Hi)) (Some ""))
    by reflexivity.
  split; [exact H|]. rewrite (proj1 (first_flush SPEC_COLORS screen_Hi H)).
  vm_compute. reflexivity.
Defined.

Lemma erase_new_screen_witness :
  0 <= 3 ∧ truthy (SPEC_COLORS !! "NONE") = false ∧
  Cursor._stream (Cursor.flush SPEC_COLORS (Cursor.eraseScreen SPEC_COLORS screen_3x2)) =
    replicate 6 (ESC +:+ "[1;1f " +:+ ESC +:+ "[0m").
Proof.
  assert (H1 : 0 <= 3) by lia.
  assert (H2 : truthy (SPEC_COLORS !! "NONE") = false) by reflexivity.
  split; [exact H1|]. split; [exact H2|].
  exact (proj2 (erase_new_screen SPEC_COLORS 3 2 H1 H2)).
Defined.

(** ** Drawing the same text again *)

Section Redraw.

Variable COLORS : gmap string JSValue.

Lemma flush_silent (this : Cursor.t) :
  (∀ p, emitted COLORS this p = None) →
  Cursor._stream (Cursor.flush COLORS this) = Cursor._stream this.
Proof.
  intros Hnone. rewrite flush_stream.
  rewrite (omap_ext_Forall _ (λ _, None)) by (by apply Forall_true).
  generalize (seq 0 (length (Cursor._cells this))). intros l.
  rewrite <- (app_nil_r (Cursor._stream this)) at 2. f_equal.
  induction l as [|i l IH]; [done|exact IH].
Qed.

(** X18.  Drawing again what is on the screen costs nothing: when a text
    has been written and flushed, writing the same text from the same
    position with the same pen and flushing again sends nothing. *)
Theorem redraw_is_silent (data : string) (this this1 this2 : Cursor.t) :
  well_formed this →
  Cursor.write COLORS data this = Some this1 →
  Cursor.write COLORS data
    (Cursor.moveTo (inject_Z (Cursor._x this)) (inject_Z (Cursor._y this))
       (Cursor.flush COLORS this1)) = Some this2 →
  Cursor._stream (Cursor.flush COLORS this2) =
  Cursor._stream (Cursor.flush COLORS this1).
Proof.
  intros Hwf Hw1 Hw2.
  destruct (write_cells COLORS data this Hwf)
    as (t1 & Ht1 & Hwf1 & Hsf1 & Hx1 & Hc1).
  rewrite Hw1 in Ht1. injection Ht1 as <-.
  set (back := Cursor.moveTo (inject_Z (Cursor._x this))
                 (inject_Z (Cursor._y this)) (Cursor.flush COLORS this1)) in *.
  destruct (flush_frame COLORS this1) as (Fw & Fh & Fx & Fy & Fb & Ff & Fd).
  destruct Hsf1 as (Sw & Sh & Sy & Sb & Sf & Sd & Ss & Sl).
  assert (Hback : back =
    repen (Cursor._x this) (Cursor._y this) (Cursor._background this)
      (Cursor._foreground this) (Cursor._display this) (Cursor.flush COLORS this1)).
  { unfold back, Cursor.moveTo, Math_floor, repen. cursor_simpl.
    rewrite !Qfloor_Z, Fb, Ff, Fd, Sb, Sf, Sd. reflexivity. }
  assert (Hwfb : well_formed back).
  { rewrite Hback. pose proof (flush_well_formed COLORS this1 Hwf1) as Hf.
    by destruct (Cursor.flush COLORS this1). }
  destruct (write_cells COLORS data back Hwfb)
    as (t2 & Ht2 & Hwf2 & Hsf2 & Hx2 & Hc2).
  rewrite Hw2 in Ht2. injection Ht2 as <-.
  destruct Hsf2 as (_ & _ & _ & _ & _ & _ & Ss2 & Sl2).
  assert (Hwritten : ∀ p, written_at back data p = written_at this data p).
  { intros p. rewrite Hback. unfold written_at, on_grid, repen. cbn.
    by rewrite Fw, Fh, Sw, Sh. }
  assert (Hpen : ∀ ch xk, pen_cell COLORS back ch xk = pen_cell COLORS this ch xk).
  { intros ch xk. by rewrite Hback. }
  rewrite flush_silent.
  - rewrite Ss2, Hback. reflexivity.
  - intros p. unfold emitted. rewrite Hc2, Sl2, Hwritten.
    assert (Hcb : Cursor._cells back = flushed_cell <$> Cursor._cells this1).
    { rewrite Hback. cbn. apply flush_cells. }
    assert (Hlb : Cursor._lastFrame back =
                  Cursor._lastFrame (Cursor.flush COLORS this1)).
    { by rewrite Hback. }
    rewrite Hcb, Hlb, list_lookup_fmap.
    destruct (Cursor._cells this1 !! p) as [c1|] eqn:Hp1; [|done]. simpl.
    pose proof Hp1 as Hq. rewrite Hc1 in Hq.
    destruct (Cursor._cells this !! p) as [c0|] eqn:Hp0; [|done].
    simpl in Hq. injection Hq as Hq.
    destruct (written_at this data p) as [[ch xk]|] eqn:Hwa.
    + rewrite Hpen. simpl. subst c1.
      rewrite (flush_shadow_dirty COLORS this1 p _ Hp1 eq_refl).
      by rewrite decide_False by (intros H; by apply H).
    + by rewrite flushed_cell_clean.
Qed.

End Redraw.

Lemma redraw_is_silent_witness :
  well_formed (Cursor.moveTo 1 1 screen_3x2) ∧
  ∃ this1 this2,
    Cursor.write SPEC_COLORS "Hi" (Cursor.moveTo 1 1 screen_3x2) = Some this1 ∧
    Cursor.write SPEC_COLORS "Hi"
      (Cursor.moveTo 1 1 (Cursor.flush SPEC_COLORS this1)) = Some this2 ∧
    Cursor._stream (Cursor.flush SPEC_COLORS this2) =
    Cursor._stream (Cursor.flush SPEC_COLORS this1).
Proof.
  set (this := Cursor.moveTo 1 1 screen_3x2).
  assert (Hwf : well_formed this) by (split; reflexivity).
  split; [exact Hwf|].
  destruct (Cursor.write SPEC_COLORS "Hi" this) as [this1|] eqn:H1;
    [|vm_compute in H1; discriminate].
  destruct (Cursor.write SPEC_COLORS "Hi"
              (Cursor.moveTo (inject_Z (Cursor._x this)) (inject_Z (Cursor._y this))
                 (Cursor.flush SPEC_COLORS this1))) as [this2|] eqn:H2.
  - exists this1, this2. split; [reflexivity|]. split; [exact H2|].
    exact (redraw_is_silent SPEC_COLORS "Hi" this this1 this2 Hwf H1 H2).
  - exfalso. vm_compute in H1. injection H1 as <-. vm_compute in H2. discriminate.
Defined.

(** ** The colours that cells hold *)

Section Colours.

Variable COLORS : gmap string JSValue.

Lemma normalized_valid (name : string) : color_valid COLORS (normalized COLORS name).
Proof.
  unfold color_valid, normalized.
  destruct (truthy (COLORS !! toUpperCase name)) eqn:H; [by right|by left].
Qed.

Lemma setters_valid (cell : Cell.t) (bg fg : option string) :
  colors_valid COLORS (Cell.setForeground COLORS fg (Cell.setBackground COLORS bg cell)).
Proof. split; apply normalized_valid. Qed.

Lemma constructor_colors_valid (char : option string) (options : Cell.Options) :
  colors_valid COLORS (Cell.constructor COLORS char options).
Proof. split; apply normalized_valid. Qed.

Lemma reset_colors_valid (cell : Cell.t) : colors_valid COLORS (Cell.reset COLORS cell).
Proof. split; apply normalized_valid. Qed.

Lemma pen_cell_colors_valid (this : Cursor.t) (char : ascii) (x : Z) :
  colors_valid COLORS (pen_cell COLORS this char x).
Proof. split; apply normalized_valid. Qed.

(** X19.  The colours of a cell are always [none] or a name to which the
    table gives a truthy code: the constructor, [setBackground],
    [setForeground] and [reset] store nothing else, whatever name they are
    given, the other mutators keep the colours, and so every cell of a new
    screen and of a screen after [write], [erase] and [flush] holds such
    colours. *)
Theorem colors_always_valid :
  (∀ char options, colors_valid COLORS (Cell.constructor COLORS char options)) ∧
  (∀ cell name, color_valid COLORS
                  (Cell.getBackground (Cell.setBackground COLORS name cell)) ∧
                color_valid COLORS
                  (Cell.getForeground (Cell.setForeground COLORS name cell))) ∧
  (∀ cell, colors_valid COLORS (Cell.reset COLORS cell)) ∧
  (∀ width height,
     Forall (colors_valid COLORS)
       (Cursor._cells (Cursor.constructor COLORS width height))) ∧
  ∀ this,
    well_formed this →
    Forall (colors_valid COLORS) (Cursor._cells this) →
    Forall (colors_valid COLORS) (Cursor._cells (Cursor.flush COLORS this)) ∧
    (∀ x1 y1 x2 y2,
       Forall (colors_valid COLORS)
         (Cursor._cells (Cursor.erase COLORS x1 y1 x2 y2 this))) ∧
    (∀ data this', Cursor.write COLORS data this = Some this' →
       Forall (colors_valid COLORS) (Cursor._cells this')).
Proof.
  split_and!.
  - apply constructor_colors_valid.
  - intros cell name. split; apply normalized_valid.
  - apply reset_colors_valid.
  - intros width height. simpl. apply Forall_replicate, constructor_colors_valid.
  - intros this Hwf Hvalid. split_and!.
    + rewrite flush_cells. apply Forall_fmap.
      eapply Forall_impl; [exact Hvalid|]. intros cell Hc. simpl.
      unfold flushed_cell. by destruct (Cell.isModified cell).
    + intros x1 y1 x2 y2. apply Forall_lookup. intros p cell.
      rewrite erase_cells.
      destruct (Cursor._cells this !! p) as [c|] eqn:Hp; [|done].
      simpl. intros [= <-].
      case_decide; [apply reset_colors_valid|].
      by eapply Forall_lookup_1.
    + intros data this' Hw.
      destruct (write_cells COLORS data this Hwf) as (t & Ht & _ & _ & _ & Hc).
      rewrite Hw in Ht. injection Ht as <-.
      apply Forall_lookup. intros p cell. rewrite Hc.
      destruct (Cursor._cells this !! p) as [c|] eqn:Hp; [|done].
      simpl. intros [= <-].
      destruct (written_at this data p) as [[ch x]|];
        [apply pen_cell_colors_valid|].
      by eapply Forall_lookup_1.
Qed.

End Colours.

Lemma colors_always_valid_witness :
  well_formed screen_Hi ∧
  Forall (colors_valid SPEC_COLORS) (Cursor._cells screen_Hi) ∧
  Forall (colors_valid SPEC_COLORS)
    (Cursor._cells (Cursor.flush SPEC_COLORS screen_Hi)).
Proof.
  assert (Hwf : well_formed screen_Hi) by (split; reflexivity).
  assert (Hv : Forall (colors_valid SPEC_COLORS) (Cursor._cells screen_Hi)).
  { repeat first [apply Forall_nil_2 | apply Forall_cons_2];
      split; first [by left | by right]. }
  split; [exact Hwf|]. split; [exact Hv|].
  destruct (colors_always_valid SPEC_COLORS) as (_ & _ & _ & _ & H).
  exact (proj1 (H screen_Hi Hwf Hv)).
Defined.

(** ** Writing on a clean screen and flushing *)

Lemma string_get_lookup (s : string) (k : nat) :
  String.get k s = list_ascii_of_string s !! k.
Proof.
  revert k. induction s as [|c s IH]; intros [|k]; try done. simpl. apply IH.
Qed.

Lemma length_list_ascii (s : string) :
  length (list_ascii_of_string s) = String.length s.
Proof. induction s as [|c s IH]; [done|]. simpl. by rewrite IH. Qed.

Lemma filter_Forall_not {A} (P : A → Prop) `{∀ a, Decision (P a)} (l : list A) :
  Forall (λ a, ¬ P a) l → filter P l = [].
Proof.
  induction 1 as [|a l Ha _ IH]; [done|].
  by rewrite filter_cons_False.
Qed.

Section WriteAndFlush.

Variable COLORS : gmap string JSValue.

(** The grid after a write that fits on the cursor's line. *)
Lemma write_fitting_cells (data : string) (this this' : Cursor.t) :
  well_formed this →
  on_grid this (Cursor._x this) (Cursor._y this) →
  Cursor._x this + Z.of_nat (String.length data) <= Cursor._width this →
  Cursor.write COLORS data this = Some this' →
  let p0 := Z.to_nat (Cursor._y this * Cursor._width this + Cursor._x this) in
  Cursor._cells this' =
  take p0 (Cursor._cells this) ++
  imap (λ k char, pen_cell COLORS this char (Cursor._x this + Z.of_nat k))
       (list_ascii_of_string data) ++
  drop (p0 + String.length data) (Cursor._cells this).
Proof.
  intros Hwf Hgrid Hfit Hw p0.
  destruct (write_cells COLORS data this Hwf) as (t & Ht & _ & _ & _ & Hc).
  rewrite Hw in Ht. injection Ht as <-.
  pose proof Hgrid as [Hx Hy].
  destruct (on_grid_pointer this _ _ Hwf Hgrid) as [Hpos Hlt]. fold p0 in Hlt.
  assert (Hlen : (p0 + String.length data ≤ length (Cursor._cells this))%nat).
  { destruct Hwf as [Hcells _]. rewrite Hcells. unfold p0. nia. }
  apply list_eq. intros p. rewrite Hc. unfold written_at, on_grid.
  set (k := Z.of_nat p - (Cursor._y this * Cursor._width this + Cursor._x this)).
  destruct (decide (p < p0)%nat) as [Hlow|Hlow].
  - rewrite decide_False by lia.
    rewrite lookup_app_l by (rewrite length_take; lia).
    rewrite lookup_take_lt by done. by destruct (Cursor._cells this !! p).
  - rewrite lookup_app_r by (rewrite length_take; lia).
    rewrite length_take_le by lia.
    destruct (decide (p < p0 + String.length data)%nat) as [Hmid|Hhigh].
    + rewrite decide_True by lia.
      rewrite lookup_app_l by (rewrite length_imap, length_list_ascii; lia).
      rewrite list_lookup_imap, string_get_lookup.
      replace (Z.to_nat k) with (p - p0)%nat by lia.
      destruct (lookup_lt_is_Some_2 (Cursor._cells this) p) as [cell ->]; [lia|].
      destruct (lookup_lt_is_Some_2 (list_ascii_of_string data) (p - p0))
        as [char ->]; [rewrite length_list_ascii; lia|].
      simpl. do 2 f_equal. lia.
    + rewrite lookup_app_r by (rewrite length_imap, length_list_ascii; lia).
      rewrite length_imap, length_list_ascii, lookup_drop.
      replace (p0 + String.length data + (p - p0 - String.length data))%nat
        with p by lia.
      assert (String.get (Z.to_nat k) data = None) as Hnone.
      { rewrite string_get_lookup. apply lookup_ge_None_2.
        rewrite length_list_ascii. lia. }
      rewrite Hnone. case_decide; by destruct (Cursor._cells this !! p).
Qed.

(** X20.  On a screen with no dirty cell that was never flushed, writing a
    text that fits on the cursor's line and flushing sends the renderings of
    the characters of the text, one after the other from left to right, each
    at its column and with the pen's colours and styles, and nothing
    else. *)
Theorem write_then_flush (data : string) (this this' : Cursor.t) :
  well_formed this →
  all_clean this →
  Cursor._lastFrame this = replicate (length (Cursor._cells this)) (Some "") →
  on_grid this (Cursor._x this) (Cursor._y this) →
  Cursor._x this + Z.of_nat (String.length data) <= Cursor._width this →
  Cursor.write COLORS data this = Some this' →
  Cursor._stream (Cursor.flush COLORS this') =
  Cursor._stream this ++
  imap (λ k char,
          Cell.toString COLORS
            (pen_cell COLORS this char (Cursor._x this + Z.of_nat k)))
       (list_ascii_of_string data).
Proof.
  intros Hwf Hclean Hshadow Hgrid Hfit Hw.
  pose proof (write_fitting_cells data this this' Hwf Hgrid Hfit Hw) as Hcells.
  destruct (write_cells COLORS data this Hwf) as (t & Ht & Hwf' & Hsf & _ & _).
  rewrite Hw in Ht. injection Ht as <-.
  destruct Hsf as (Sw & Sh & _ & _ & _ & _ & Hs & Hl).
  rewrite first_flush_stream.
  - rewrite Hs, Hcells. cbv zeta. f_equal.
    rewrite !filter_app.
    rewrite (filter_Forall_not _ (take _ _)).
    + rewrite (filter_Forall_not _ (drop _ _)).
      * rewrite app_nil_r. simpl app. rewrite filter_Forall.
        -- by rewrite fmap_imap.
        -- apply Forall_lookup. intros i cell.
           rewrite list_lookup_imap.
           destruct (list_ascii_of_string data !! i); [|done].
           by intros [= <-].
      * apply Forall_drop. eapply Forall_impl; [exact Hclean|].
        intros cell Hc. simpl in Hc. by rewrite Hc.
    + apply Forall_take. eapply Forall_impl; [exact Hclean|].
      intros cell Hc. simpl in Hc. by rewrite Hc.
  - rewrite Hl, Hshadow. f_equal.
    destruct Hwf as [Hn _], Hwf' as [Hn' _]. by rewrite Hn, Hn', Sw, Sh.
Qed.

End WriteAndFlush.

Lemma write_then_flush_witness :
  let this := Cursor.moveTo 1 1 screen_3x2 in
  well_formed this ∧ all_clean this ∧
  Cursor._lastFrame this = replicate (length (Cursor._cells this)) (Some "") ∧
  on_grid this (Cursor._x this) (Cursor._y this) ∧
  Cursor._x this + Z.of_nat (String.length "Hi") <= Cursor._width this ∧
  ∃ this',
    Cursor.write SPEC_COLORS "Hi" this = Some this' ∧
    Cursor._stream (Cursor.flush SPEC_COLORS this') =
      [ ESC +:+ "[2;2fH" +:+ ESC +:+ "[0m"; ESC +:+ "[2;3fi" +:+ ESC +:+ "[0m" ].
Proof.
  intros this.
  assert (Hwf : well_formed this) by (split; reflexivity).
  assert (Hclean : all_clean this)
    by (repeat first [apply Forall_nil_2 | apply Forall_cons_2]; reflexivity).
  assert (Hshadow : Cursor._lastFrame this =
                    replicate (length (Cursor._cells this)) (Some ""))
    by reflexivity.
  assert (Hx : Cursor._x this = 1) by reflexivity.
  assert (Hy : Cursor._y this = 1) by reflexivity.
  assert (Hw : Cursor._width this = 3) by reflexivity.
  assert (Hh : Cursor._height this = 2) by reflexivity.
  assert (Hgrid : on_grid this (Cursor._x this) (Cursor._y this))
    by (unfold on_grid; rewrite Hx, Hy, Hw, Hh; lia).
  assert (Hfit : Cursor._x this + Z.of_nat (String.length "Hi") <=
                 Cursor._width this) by (rewrite Hx, Hw; simpl; lia).
  split_and!; try assumption.
  destruct (Cursor.write SPEC_COLORS "Hi" this) as [this'|] eqn:Hwr;
    [|vm_compute in Hwr; discriminate].
  exists this'. split; [reflexivity|].
  rewrite (write_then_flush SPEC_COLORS "Hi" this this' Hwf Hclean Hshadow
             Hgrid Hfit Hwr).
  reflexivity.
Defined.

Lemma erase_by_index_witness :
  let this := Cursor.flush SPEC_COLORS screen_Hi in
  (∃ x y, 4 <= x <= 4 ∧ 0 <= y <= 0 ∧ Z.of_nat 4 = y * Cursor._width this + x) ∧
  Cursor._cells (Cursor.erase SPEC_COLORS 4 0 4 0 this) !! 4%nat =
    Cell.reset SPEC_COLORS <$> Cursor._cells this !! 4%nat.
Proof.
  intros this.
  assert (Hex : ∃ x y, 4 <= x <= 4 ∧ 0 <= y <= 0 ∧
                       Z.of_nat 4 = y * Cursor._width this + x).
  { exists 4, 0. split; [lia|]. split; [lia|]. vm_compute. reflexivity. }
  split; [exact Hex|].
  exact (proj1 (erase_by_index SPEC_COLORS 4 0 4 0 this 4) Hex).
Defined.

(** ** Characters and coordinates of the cells *)

Section GridContents.

Variable COLORS : gmap string JSValue.

Lemma written_at_Some (this : Cursor.t) (data : string) (p : nat)
    (char : ascii) (x : Z) :
  written_at this data p = Some (char, x) →
  on_grid this x (Cursor._y this) ∧
  Z.of_nat p = Cursor._y this * Cursor._width this + x.
Proof.
  unfold written_at. case_decide as Hd; [|done].
  destruct (String.get _ data); [|done]. simpl. intros [= _ <-].
  split; [tauto|lia].
Qed.

Lemma erase_cell_kept (x1 y1 x2 y2 : Z) (this : Cursor.t) (p : nat) (cell : Cell.t) :
  Cursor._cells (Cursor.erase COLORS x1 y1 x2 y2 this) !! p = Some cell →
  ∃ old, Cursor._cells this !! p = Some old ∧
         (cell = old ∨ cell = Cell.reset COLORS old).
Proof.
  rewrite erase_cells.
  destruct (Cursor._cells this !! p) as [old|]; [|done]. simpl.
  intros [= <-]. exists old. split; [done|]. case_decide; auto.
Qed.

(** X21.  On the screen every cell holds exactly one character: this is so
    on a new screen and stays so through [flush], [erase] and [write]
    (while [setChar] alone stores at most one character, none for the empty
    string). *)
Theorem one_char_invariant :
  (∀ char cell, (String.length (Cell.getChar (Cell.setChar char cell)) ≤ 1)%nat) ∧
  (∀ width height, one_char_each (Cursor.constructor COLORS width height)) ∧
  ∀ this,
    well_formed this → one_char_each this →
    one_char_each (Cursor.flush COLORS this) ∧
    (∀ x1 y1 x2 y2, one_char_each (Cursor.erase COLORS x1 y1 x2 y2 this)) ∧
    (∀ data this', Cursor.write COLORS data this = Some this' → one_char_each this').
Proof.
  split_and!.
  - intros [[|c [|c' s]]|] cell; simpl; lia.
  - intros width height. unfold one_char_each. simpl.
    by apply Forall_replicate.
  - intros this Hwf Hone. unfold one_char_each in *. split_and!.
    + rewrite flush_cells. apply Forall_fmap.
      eapply Forall_impl; [exact Hone|]. intros cell Hc. simpl.
      unfold flushed_cell. by destruct (Cell.isModified cell).
    + intros x1 y1 x2 y2. apply Forall_lookup. intros p cell Hp.
      destruct (erase_cell_kept _ _ _ _ _ _ _ Hp) as (old & Hold & [->| ->]).
      * by eapply (Forall_lookup_1 _ _ _ _ Hone).
      * reflexivity.
    + intros data this' Hw.
      destruct (write_cells COLORS data this Hwf) as (t & Ht & _ & _ & _ & Hc).
      rewrite Hw in Ht. injection Ht as <-.
      apply Forall_lookup. intros p cell. rewrite Hc.
      destruct (Cursor._cells this !! p) as [c|] eqn:Hp; [|done].
      simpl. intros [= <-].
      destruct (written_at this data p) as [[ch x]|]; [reflexivity|].
      by eapply (Forall_lookup_1 _ _ _ _ Hone).
Qed.

Lemma unwritten_flushed (cell : Cell.t) :
  unwritten COLORS cell → unwritten COLORS (flushed_cell cell).
Proof. unfold flushed_cell. by destruct (Cell.isModified cell). Qed.

Lemma unwritten_reset (cell : Cell.t) :
  unwritten COLORS cell → unwritten COLORS (Cell.reset COLORS cell).
Proof.
  intros (Hxy & _). rewrite reset_unfold. split; [exact Hxy|].
  split_and!; reflexivity.
Qed.

(** X22.  [write] stores in every cell it writes the coordinates of the
    grid position of that cell.  So on the screen a cell stores the
    coordinates of its own position unless it is an unwritten cell (at
    (0, 0), a space, no colour, no style): this is so on a new screen and
    stays so through [flush], [erase] and [write], and the rendering of a
    cell that is not unwritten starts with the position sequence of the
    cell's own line and column. *)
Theorem coordinates_invariant :
  (∀ width height,
     coordinates_kept COLORS (Cursor.constructor COLORS width height)) ∧
  ∀ this,
    well_formed this → coordinates_kept COLORS this →
    coordinates_kept COLORS (Cursor.flush COLORS this) ∧
    (∀ x1 y1 x2 y2,
       coordinates_kept COLORS (Cursor.erase COLORS x1 y1 x2 y2 this)) ∧
    (∀ data this',
       Cursor.write COLORS data this = Some this' →
       coordinates_kept COLORS this' ∧
       ∀ p char x,
         written_at this data p = Some (char, x) →
         ∃ cell,
           Cursor._cells this' !! p = Some cell ∧
           Cell.getChar cell = String char EmptyString ∧
           (Cell.getX cell, Cell.getY cell) =
             (column_of this' p, line_of this' p)) ∧
    (∀ p cell,
       Cursor._cells this !! p = Some cell →
       ¬ unwritten COLORS cell →
       ∃ rest,
         Cell.toString COLORS cell =
         position_sequence (line_of this p + 1) (column_of this p + 1) +:+ rest).
Proof.
  split.
  - intros width height p cell Hp. right.
    apply lookup_replicate in Hp as [-> _]. by split_and!.
  - intros this Hwf Hkept.
    assert (Hwritten : ∀ data p char x,
      written_at this data p = Some (char, x) →
      (x, Cursor._y this) = (column_of this p, line_of this p) ∧
      (p < length (Cursor._cells this))%nat).
    { intros data p char x Hwa.
      destruct (written_at_Some _ _ _ _ _ Hwa) as [Hgrid Hidx].
      destruct (on_grid_pointer this _ _ Hwf Hgrid) as [_ Hlt].
      rewrite <- Hidx, Nat2Z.id in Hlt. split; [|done].
      destruct Hgrid as [Hx Hy]. unfold column_of, line_of. rewrite Hidx.
      f_equal.
      - apply (Z.mod_unique_pos _ _ (Cursor._y this) x); lia.
      - apply (Z.div_unique_pos _ _ (Cursor._y this) x); lia. }
    split_and!.
    + intros p cell. rewrite flush_cells, list_lookup_fmap.
      destruct (Cursor._cells this !! p) as [old|] eqn:Hp; [|done].
      simpl. intros [= <-]. unfold column_of, line_of.
      destruct (flush_frame COLORS this) as (-> & _).
      destruct (Hkept p old Hp) as [H|H].
      * left. unfold flushed_cell. by destruct (Cell.isModified old).
      * right. by apply unwritten_flushed.
    + intros x1 y1 x2 y2 p cell Hp.
      destruct (erase_cell_kept _ _ _ _ _ _ _ Hp) as (old & Hold & Hcell).
      pose proof (erase_keeps_frame COLORS x1 y1 x2 y2 this) as Hf.
      injection Hf as _ Hw _ _ _ _ _ _ _.
      unfold column_of, line_of. rewrite Hw.
      destruct Hcell as [-> | ->]; [by apply Hkept|].
      destruct (Hkept p old Hold) as [H|H].
      * left. rewrite reset_unfold. exact H.
      * right. by apply unwritten_reset.
    + intros data this' Hw.
      destruct (write_cells COLORS data this Hwf)
        as (t & Ht & _ & (Sw & _) & _ & Hc).
      rewrite Hw in Ht. injection Ht as <-. split.
      * intros p cell. rewrite Hc.
        destruct (Cursor._cells this !! p) as [old|] eqn:Hp; [|done].
        simpl. intros [= <-]. unfold column_of, line_of. rewrite Sw.
        destruct (written_at this data p) as [[ch x]|] eqn:Hwa;
          [|by apply Hkept].
        left. exact (proj1 (Hwritten data p ch x Hwa)).
      * intros p char x Hwa.
        destruct (Hwritten data p char x Hwa) as [Hxy Hlt].
        destruct (lookup_lt_is_Some_2 _ _ Hlt) as [old Hold].
        exists (pen_cell COLORS this char x).
        split; [by rewrite Hc, Hold, Hwa|]. split; [reflexivity|].
        unfold column_of, line_of. rewrite Sw. exact Hxy.
    + intros p cell Hp Hnot.
      destruct (Hkept p cell Hp) as [H|H]; [|done].
      injection H as Hx Hy. unfold Cell.getX, Cell.getY in *.
      eexists. unfold Cell.toString, Cell.getX, Cell.getY.
      rewrite Hx, Hy. reflexivity.
Qed.

End GridContents.

Lemma one_char_invariant_witness :
  well_formed screen_3x2 ∧ one_char_each screen_3x2 ∧
  one_char_each (Cursor.erase SPEC_COLORS 0 0 1 1 screen_3x2).
Proof.
  assert (Hwf : well_formed screen_3x2) by (split; reflexivity).
  destruct (one_char_invariant SPEC_COLORS) as (_ & Hnew & Hkeep).
  split; [exact Hwf|]. split; [exact (Hnew 3 2)|].
  exact (proj1 (proj2 (Hkeep screen_3x2 Hwf (Hnew 3 2))) 0 0 1 1).
Defined.

Lemma coordinates_invariant_witness :
  let this :=
    Cursor.background (Some "white")
      (Cursor.foreground (Some "yellow") (Cursor.moveTo 1 1 screen_3x2)) in
  well_formed this ∧ coordinates_kept SPEC_COLORS this ∧
  Cursor.write SPEC_COLORS "Hi" this = Some screen_Hi ∧
  written_at this "Hi" 4 = Some ("H"%char, 1) ∧
  coordinates_kept SPEC_COLORS screen_Hi ∧
  ∃ cell,
    Cursor._cells screen_Hi !! 4%nat = Some cell ∧
    Cell.getChar cell = "H" ∧
    (Cell.getX cell, Cell.getY cell) = (1, 1).
Proof.
  intros this.
  assert (Hwf : well_formed this) by (split; reflexivity).
  destruct (coordinates_invariant SPEC_COLORS) as (Hnew & Hkeep).
  assert (Hkept : coordinates_kept SPEC_COLORS this) by exact (Hnew 3 2).
  assert (Hw : Cursor.write SPEC_COLORS "Hi" this = Some screen_Hi)
    by (vm_compute; reflexivity).
  assert (Hwa : written_at this "Hi" 4 = Some ("H"%char, 1))
    by (vm_compute; reflexivity).
  destruct (Hkeep this Hwf Hkept) as (_ & _ & Hwrite & _).
  destruct (Hwrite "Hi" screen_Hi Hw) as (Hkept' & Hcells).
  split_and!; try assumption.
  destruct (Hcells 4%nat "H"%char 1 Hwa) as (cell & Hcell & Hchar & Hxy).
  exists cell. split; [exact Hcell|]. split; [exact Hchar|]. exact Hxy.
Defined.
